(** * FundX dashboard scripts: a shallow embedding and its properties

    The development embeds the browser scripts of the FundX fund-flow
    analysis platform (the multi-bill dashboard, the single-bill dashboard
    and the upload manager found in [static/js/multi-dashboard.js]) and
    proves the properties the platform's specification states about them.

    Conventions.
    - A JavaScript string is a [string] holding its UTF-8 bytes.
    - [null] and [undefined] are [None]; a present value is [Some].
    - A promise is the [Outcome] it settles to.
    - Effects (requests, alerts, timers) are returned as explicit values.
    - The page holds every element a script looks up without a guard (the
      panels, the filter controls, the staging area); an element a script
      guards with [if (el)] may be missing and is an [option].
    - Numbers are doubles: [parseInt] and the text of a number round as a
      double does.
    - The upload page writes a file name into the markup of its row as it
      is. The events of the page are followed as long as every such name is
      plain text there ([Upload.inert]); outside the staging area no
      element of the page has an id that starts with [row-]. *)

From Stdlib Require Import ZArith QArith Qabs String Ascii List Bool Lia.
From stdpp Require Import base option list strings gmap.

Local Open Scope string_scope.
Local Open Scope list_scope.

(** ** JavaScript primitives used by the scripts *)

Module Js.

(** The settled state of a promise, or the result of a call that may throw. *)
Inductive JsError : Type :=
| Error (message : string)      (* [new Error(message)] *)
| TypeError                     (* property access on [undefined]/[null]; a failed [fetch] *)
| SyntaxError.                  (* [Response.json()] on a body that is not JSON *)

Inductive Outcome (A : Type) : Type :=
| Resolved (a : A)
| Rejected (e : JsError).
Arguments Resolved {A} a.
Arguments Rejected {A} e.

Definition bytes (s : string) : list N := map N_of_ascii (list_ascii_of_string s).
Definition of_bytes (l : list N) : string := string_of_list_ascii (map ascii_of_N l).

(** [String.prototype.toLowerCase], on the ASCII letters. The scripts only
    compare the result against an ASCII suffix; no other code point
    lower-cases to an ASCII letter of that suffix. *)
Definition lower_byte (n : N) : N :=
  if ((65 <=? n) && (n <=? 90))%N then (n + 32)%N else n.
Definition toLowerCase (s : string) : string := of_bytes (map lower_byte (bytes s)).

(** [String.prototype.endsWith]. *)
Definition endsWith (s suffix : string) : bool :=
  let n := String.length s in
  let m := String.length suffix in
  if (n <? m)%nat then false else String.eqb (substring (n - m) m s) suffix.

(** Number of bytes of the white-space or line-terminator code point that
    starts [l] (0 when there is none): TAB, LF, VT, FF, CR, SP, U+00A0,
    U+1680, U+2000..U+200A, U+2028, U+2029, U+202F, U+205F, U+3000, U+FEFF. *)
Definition ws_head (l : list N) : nat :=
  match l with
  | c :: r =>
      if ((9 <=? c) && (c <=? 13) || (c =? 32))%N then 1%nat
      else match c, r with
           | 194%N, 160%N :: _ => 2%nat
           | 225%N, 154%N :: 128%N :: _ => 3%nat
           | 226%N, 128%N :: d :: _ =>
               if ((128 <=? d) && (d <=? 138) || (d =? 168) || (d =? 169) || (d =? 175))%N
               then 3%nat else 0%nat
           | 226%N, 129%N :: 159%N :: _ => 3%nat
           | 227%N, 128%N :: 128%N :: _ => 3%nat
           | 239%N, 187%N :: 191%N :: _ => 3%nat
           | _, _ => 0%nat
           end
  | [] => 0%nat
  end.

(** The same test on a reversed byte list (the code point that ends the
    string). *)
Definition ws_last (l : list N) : nat :=
  match l with
  | c :: r =>
      if ((9 <=? c) && (c <=? 13) || (c =? 32))%N then 1%nat
      else match c, r with
           | 160%N, 194%N :: _ => 2%nat
           | 128%N, 154%N :: 225%N :: _ => 3%nat
           | 159%N, 129%N :: 226%N :: _ => 3%nat
           | 128%N, 128%N :: 227%N :: _ => 3%nat
           | 191%N, 187%N :: 239%N :: _ => 3%nat
           | d, 128%N :: 226%N :: _ =>
               if ((128 <=? d) && (d <=? 138) || (d =? 168) || (d =? 169) || (d =? 175))%N
               then 3%nat else 0%nat
           | _, _ => 0%nat
           end
  | [] => 0%nat
  end.

Fixpoint strip (head : list N -> nat) (fuel : nat) (l : list N) : list N :=
  match fuel with
  | O => l
  | S fuel' =>
      match head l with
      | O => l
      | k => strip head fuel' (drop k l)
      end
  end.

Definition trimStart_bytes (l : list N) : list N := strip ws_head (length l) l.
Definition trimEnd_bytes (l : list N) : list N :=
  rev (strip ws_last (length l) (rev l)).

(** [String.prototype.trim]. *)
Definition trim (s : string) : string :=
  of_bytes (trimEnd_bytes (trimStart_bytes (bytes s))).

(** [encodeURIComponent] on a well-formed string: every byte of the UTF-8
    form is kept when it is one of [A-Z a-z 0-9 - _ . ! ~ * ' ( )] and
    written as [%XX] otherwise. *)
Definition uri_unreserved (n : N) : bool :=
  ((65 <=? n) && (n <=? 90) || (97 <=? n) && (n <=? 122) || (48 <=? n) && (n <=? 57)
   || (n =? 45) || (n =? 95) || (n =? 46) || (n =? 33) || (n =? 126)
   || (n =? 42) || (n =? 39) || (n =? 40) || (n =? 41))%N.

Definition hex_digit (n : N) : N := if (n <? 10)%N then (48 + n)%N else (55 + n)%N.

Definition encode_byte (n : N) : list N :=
  if uri_unreserved n then [n] else [37%N; hex_digit (n / 16); hex_digit (n mod 16)].

Definition encodeURIComponent (s : string) : string :=
  of_bytes (concat (map encode_byte (bytes s))).

(** The Number values the scripts handle as counts and minutes: [NaN], an
    integer that a double holds, or an infinity. [Num z] is the double
    nearest to [z] (ties to even), which is [z] itself whenever
    [|z| <= 2^53]. *)
Inductive JsNumber : Type :=
| NaN
| Num (z : Z)
| Infinity (negative : bool).

(** The Numbers that are what they stand for: [NaN] and the integers every
    double represents exactly. *)
Definition exact (x : JsNumber) : Prop :=
  match x with
  | NaN => True
  | Num z => (Z.abs z <= 2 ^ 53)%Z
  | Infinity _ => False
  end.

(** The Number value for a mathematical integer: the nearest double, ties
    to the even significand of 53 bits, and an infinity from [2^1024] on. *)
Definition round_double (z : Z) : JsNumber :=
  let a := Z.abs z in
  if (a <=? 2 ^ 53)%Z then Num z
  else
    let e := (Z.log2 a - 52)%Z in
    let q := (a / 2 ^ e)%Z in
    let r := (a mod 2 ^ e)%Z in
    let half := (2 ^ (e - 1))%Z in
    let up := (half <? r)%Z || ((r =? half)%Z && Z.odd q) in
    let v := ((if up then q + 1 else q) * 2 ^ e)%Z in
    if (2 ^ 1024 <=? v)%Z then Infinity (z <? 0)%Z else Num (Z.sgn z * v).

Fixpoint digits_prefix (l : list N) (acc : option Z) : option Z :=
  match l with
  | c :: r =>
      if ((48 <=? c) && (c <=? 57))%N
      then digits_prefix r (Some (10 * default 0%Z acc + Z.of_N (c - 48))%Z)
      else acc
  | [] => acc
  end.

(** [parseInt(s, 10)]: leading white space is skipped, one sign is read,
    then the longest run of decimal digits; no digit gives [NaN], and the
    integer read is rounded to a double. (Engines round the whole run of
    digits; ECMAScript also lets one read the digits after the 20th
    significant one as zeros.) *)
Definition parseInt10 (s : string) : JsNumber :=
  let l := trimStart_bytes (bytes s) in
  let '(sign, l) :=
    match l with
    | 45%N :: r => ((-1)%Z, r)
    | 43%N :: r => (1%Z, r)
    | _ => (1%Z, l)
    end in
  match digits_prefix l None with
  | None => NaN
  | Some m => round_double (sign * m)
  end.

(** Decimal digits of a natural number, most significant first. *)
Fixpoint nat_digits (fuel : nat) (n : N) (acc : list N) : list N :=
  match fuel with
  | O => acc
  | S fuel' =>
      let acc' := (48 + n mod 10)%N :: acc in
      if (n <? 10)%N then acc' else nat_digits fuel' (n / 10) acc'
  end.

(** Whether the integer [y] rounds to the double [a]. *)
Definition rounds_to (y a : Z) : bool :=
  match round_double y with
  | Num v => (v =? a)%Z
  | _ => false
  end.

(** The shortest decimal [s * 10^j] that rounds to the double [a], looked
    for from [j] zeros down; of two that are as short, the nearer to [a],
    and of two as near, the even one. *)
Fixpoint shortest (j : nat) (a : Z) : Z * nat :=
  match j with
  | O => (a, O)
  | S j' =>
      let p := (10 ^ Z.of_nat j)%Z in
      let lo := (a / p)%Z in
      let hi := (lo + 1)%Z in
      let okl := (0 <? lo)%Z && rounds_to (lo * p) a in
      let okh := rounds_to (hi * p) a in
      if okl && okh then
        let dl := (a - lo * p)%Z in
        let dh := (hi * p - a)%Z in
        if (dl <? dh)%Z then (lo, j)
        else if (dh <? dl)%Z then (hi, j)
        else if Z.even lo then (lo, j) else (hi, j)
      else if okl then (lo, j)
      else if okh then (hi, j)
      else shortest j' a
  end.

(** The text of a double above [2^53]: the digits of its shortest decimal,
    followed by its zeros when that makes at most 21 digits, and otherwise
    written with an exponent ([46] is [.], [101] is [e], [43] is [+]). *)
Definition shortest_text (a : Z) : list N :=
  let '(s, j) := shortest (length (nat_digits (S (N.to_nat (N.log2 (Z.to_N a)))) (Z.to_N a) [])) a in
  let sd := nat_digits (S (N.to_nat (N.log2 (Z.to_N s)))) (Z.to_N s) [] in
  let n := (length sd + j)%nat in
  if (n <=? 21)%nat then sd ++ repeat 48%N j
  else
    match sd with
    | [] => []
    | d :: rest =>
        d :: match rest with [] => [] | _ => 46%N :: rest end
          ++ [101%N; 43%N]
          ++ nat_digits (S (N.to_nat (N.log2 (N.of_nat (n - 1))))) (N.of_nat (n - 1)) []
    end.

(** [Number::toString] as a template literal applies it, for [NaN], the
    infinities and integers: up to [2^53] the plain decimal digits, with
    [-] before a negative one. *)
Definition numberToString (x : JsNumber) : string :=
  match x with
  | NaN => "NaN"
  | Infinity negative => if negative then "-Infinity" else "Infinity"
  | Num z =>
      match round_double z with
      | Num v =>
          let d :=
            if (Z.abs v <=? 2 ^ 53)%Z
            then of_bytes (nat_digits (S (N.to_nat (N.log2 (Z.abs_N v)))) (Z.abs_N v) [])
            else of_bytes (shortest_text (Z.abs v)) in
          if (v <? 0)%Z then "-" +:+ d else d
      | Infinity negative => if negative then "-Infinity" else "Infinity"
      | NaN => "NaN"
      end
  end.

(** [x || d] for a string that may be [undefined]. *)
Definition or_default (x : option string) (d : string) : string :=
  match x with
  | Some (String c r) => String c r
  | _ => d
  end.

(** Truthiness of a string that may be [null] or [undefined]. *)
Definition truthy (x : option string) : bool :=
  match x with
  | Some (String _ _) => true
  | _ => false
  end.

End Js.

(** ** [fetchJSON] (both dashboards define it identically) *)

Module Fetch.
Import Js.

Section WithPayload.
(** The type of parsed JSON values. *)
Context {J : Type}.

(** What the scripts read of a [Response]: [ok], [statusText], and what
    [json()] settles to (it rejects when the body is not valid JSON). *)
Record Response : Type := mkResponse {
  ok : bool;
  statusText : string;
  json : Outcome J
}.

(** The network seen from the page: what [fetch(url)] settles to. *)
Definition Network : Type := string -> Outcome Response.

Definition fetchJSON (net : Network) (url : string) : Outcome J :=
  match net url with
  | Rejected e => Rejected e
  | Resolved r =>
      if negb (ok r) then Rejected (Error (statusText r))
      else json r
  end.

End WithPayload.
Arguments Response : clear implicits.
Arguments Network : clear implicits.

(** [p.then(f)] for a callback that may throw. *)
Definition then_ {A B : Type} (p : Outcome A) (f : A -> Outcome B) : Outcome B :=
  match p with
  | Resolved a => f a
  | Rejected e => Rejected e
  end.

End Fetch.

(** ** Payloads of the analytics endpoints

    Amounts are rationals (every finite double is one); a field the
    response does not carry is [None]. *)

Module Api.

(** The [{data: [...]}] envelope of the list endpoints. *)
Record Payload (R : Type) : Type := mkPayload { data : option (list R) }.
Arguments mkPayload {R} data.
Arguments data {R} p.

(** [x || 0] on a number that may be missing. *)
Definition or0 (x : option Q) : Q := default 0%Q x.

(** [x > y] on numbers; a missing operand compares false. *)
Definition gt (x : option Q) (y : Q) : bool :=
  match x with
  | Some q => negb (Qle_bool q y)
  | None => false
  end.

(** What a list panel shows: the empty-state message, or its rows. *)
Inductive ListView (R : Type) : Type :=
| Placeholder (text : string)
| Rows (rows : list R).
Arguments Placeholder {R} text.
Arguments Rows {R} rows.

End Api.

(** ** The multi-bill dashboard *)

Module Multi.
Import Js Api.

Record Link : Type := mkLink {
  link_source : string;
  link_target : string;
  value : option Q
}.

Record Graph : Type := mkGraph {
  nodes : option (list string);
  links : option (list Link)
}.

(** The interaction card: the empty-state message, or the node count, the
    edge count, the count of large edges and the width of the bar in percent
    ([None] is the [NaN] of 0/0; the quotient is the exact one, which the
    browser rounds to a double). *)
Inductive InteractionView : Type :=
| NoInteraction (text : string)
| Summary (n_nodes n_links bigTrans : nat) (bar_width : option Q).

Definition large_edge_threshold : Q := 10000.

Definition renderInteraction (data : option Graph) : Outcome InteractionView :=
  match data with
  | None => Resolved (NoInteraction "暂无交互数据")
  | Some d =>
      match nodes d with
      | None | Some [] => Resolved (NoInteraction "暂无交互数据")
      | Some ns =>
          match links d with
          | None => Rejected TypeError
          | Some ls =>
              let bigTrans := length (filter (fun l => gt (value l) large_edge_threshold) ls) in
              let width :=
                match ls with
                | [] => None
                | _ => Some (inject_Z (Z.of_nat bigTrans) / inject_Z (Z.of_nat (length ls)) * 100)%Q
                end in
              Resolved (Summary (length ns) (length ls) bigTrans width)
          end
      end
  end.

Record TraceRow : Type := mkTraceRow {
  source : string;
  target : string;
  amount : option Q
}.

(** A row of the tracing table: source, target, amount shown. *)
Definition renderStolen (p : option (Payload TraceRow)) : ListView (string * string * Q) :=
  match p with
  | None => Placeholder "未发现明显销赃特征"
  | Some d =>
      match data d with
      | None | Some [] => Placeholder "未发现明显销赃特征"
      | Some rows =>
          Rows (map (fun x => (source x, target x, or0 (amount x))) (take 50 rows))
      end
  end.

Record HiddenRow : Type := mkHiddenRow {
  counterparty_name : string;
  freq : Z;
  total_amount : option Q
}.

(** [xs.map((x, i) => f x i)]. *)
Definition mapi {A B : Type} (f : A -> nat -> B) (xs : list A) : list B :=
  map (fun ix => f ix.2 ix.1) (imap pair xs).

(** An item of the candidate list: rank, name, frequency, amount shown. *)
Definition renderHidden (p : option (Payload HiddenRow)) : ListView (nat * string * Z * Q) :=
  match p with
  | None => Placeholder "未挖掘到隐形同伙"
  | Some d =>
      match data d with
      | None | Some [] => Placeholder "未挖掘到隐形同伙"
      | Some rows =>
          Rows (mapi (fun x i => ((i + 1)%nat, counterparty_name x, freq x, or0 (total_amount x))) rows)
      end
  end.

(** The panel a response is rendered into. *)
Inductive Panel : Type := Interaction | Stolen | Hidden.

Definition interaction_url (caseId : string) : string :=
  "/api/analysis/multi/interaction?case_id=" +:+ encodeURIComponent caseId.
Definition stolen_url (caseId : string) : string :=
  "/api/analysis/multi/stolen_known?case_id=" +:+ encodeURIComponent caseId.
Definition hidden_url (caseId : string) (minutes : JsNumber) : string :=
  "/api/analysis/multi/hidden?case_id=" +:+ encodeURIComponent caseId
  +:+ "&minutes=" +:+ numberToString minutes.

(** [parseInt(input.value || '30', 10)]. *)
Definition window_minutes (hidden_minutes_value : option string) : JsNumber :=
  parseInt10 (or_default hidden_minutes_value "30").

(** [loadAllData(caseId)]: the requests issued, in order, each with the
    panel that renders its response. [hidden_minutes_value] is the value of
    the [hidden-minutes] input. *)
Definition loadAllData (hidden_minutes_value : option string) (caseId : option string)
  : list (string * Panel) :=
  if negb (truthy caseId) then []
  else
    let id := default "" caseId in
    let minutes := window_minutes hidden_minutes_value in
    [ (interaction_url id, Interaction);
      (stolen_url id, Stolen);
      (hidden_url id minutes, Hidden) ].

(** The click handler of the [hidden-reload-btn] button: it reads the case id
    from the [current-case-id] field and reloads the candidate list alone. *)
Definition reloadHidden (hidden_minutes_value : option string) (current_case_id : string)
  : list (string * Panel) :=
  [ (hidden_url current_case_id (window_minutes hidden_minutes_value), Hidden) ].

End Multi.

(** ** The single-bill dashboard *)

Module Single.
Import Js Api.

Record TrendRow : Type := mkTrendRow {
  month : string;
  total_in : option Q;
  total_out : option Q
}.

(** The trend card: the empty-state message, or total income and total
    expense (exact sums; the browser accumulates them as doubles). *)
Inductive TrendView : Type :=
| NoTrend (text : string)
| Totals (inSum outSum : Q).

Definition renderTrend (p : option (Payload TrendRow)) : TrendView :=
  match p with
  | None => NoTrend "暂无数据"
  | Some d =>
      match data d with
      | None | Some [] => NoTrend "暂无数据"
      | Some rows =>
          Totals (fold_left (fun s x => s + or0 (total_in x)) rows 0)%Q
                 (fold_left (fun s x => s + or0 (total_out x)) rows 0)%Q
      end
  end.

Record StatsRow : Type := mkStatsRow {
  counterparty_name : string;
  net_amount : option Q
}.

(** A row of the ranking table: counterparty, absolute net amount. *)
Definition renderStats (p : option (Payload StatsRow)) : ListView (string * Q) :=
  match p with
  | None => Placeholder "暂无相关统计"
  | Some d =>
      match data d with
      | None | Some [] => Placeholder "暂无相关统计"
      | Some rows =>
          Rows (map (fun x => (counterparty_name x, Qabs (or0 (net_amount x)))) (take 50 rows))
      end
  end.

Record KeywordRow : Type := mkKeywordRow {
  keyword_counterparty_name : string;
  in_amount : option Q;
  out_amount : option Q
}.

(** An item of the keyword list: counterparty, inbound plus outbound. *)
Definition renderKeywords (p : option (Payload KeywordRow)) : ListView (string * Q) :=
  match p with
  | None => Placeholder "未发现重点行业交易"
  | Some d =>
      match data d with
      | None | Some [] => Placeholder "未发现重点行业交易"
      | Some rows =>
          Rows (map (fun x => (keyword_counterparty_name x, (or0 (in_amount x) + or0 (out_amount x))%Q)) rows)
      end
  end.

Inductive Panel : Type := Trend | Stats | Keywords.

Definition trend_url (caseId person : string) : string :=
  "/api/analysis/single/trend?case_id=" +:+ encodeURIComponent caseId
  +:+ "&person=" +:+ encodeURIComponent person.
Definition stats_url (caseId person filter : string) : string :=
  "/api/analysis/single/stats?case_id=" +:+ encodeURIComponent caseId
  +:+ "&person=" +:+ encodeURIComponent person
  +:+ "&filter=" +:+ encodeURIComponent filter.
Definition keywords_url (caseId : string) : string :=
  "/api/analysis/single/keywords?case_id=" +:+ encodeURIComponent caseId.

(** [loadAllData(caseId)]: the requests issued, in order. [trend_person] and
    [stats_filter] are the values of the two filter controls. *)
Definition loadAllData (trend_person stats_filter : string) (caseId : option string)
  : list (string * Panel) :=
  if negb (truthy caseId) then []
  else
    let id := default "" caseId in
    let person := trim trend_person in
    [ (trend_url id person, Trend);
      (stats_url id person stats_filter, Stats);
      (keywords_url id, Keywords) ].

(** The [change] handler of the [stats-filter] control. *)
Definition reloadStats (trend_person stats_filter : string) (current_case_id : string)
  : list (string * Panel) :=
  [ (stats_url current_case_id (trim trend_person) stats_filter, Stats) ].

End Single.

(** ** The panel reload handlers

    The [click] handler of [hidden-reload-btn] and the [change] handler of
    [stats-filter] put a spinner in their panel, request the panel's data
    and render the reply into the panel; a request that fails is logged to
    the console. *)

Module Reload.
Import Js Fetch Api.

(** What a panel holds once its reload has settled. *)
Inductive PanelContent (V : Type) : Type :=
| Spinner
| Shown (v : V).
Arguments Spinner {V}.
Arguments Shown {V} v.

(** [fetchJSON(url).then(render).catch(e => console.error(e))] on a panel
    that holds the spinner: the panel afterwards, and what the console was
    given. *)
Definition reload {J V : Type} (net : Network J) (url : string) (render : J -> V)
  : PanelContent V * list JsError :=
  match then_ (fetchJSON net url) (fun body => Resolved (render body)) with
  | Resolved v => (Shown v, [])
  | Rejected e => (Spinner, [e])
  end.

(** The [click] handler of [hidden-reload-btn]. *)
Definition hiddenReloadClick (net : Network (option (Payload Multi.HiddenRow)))
  (hidden_minutes_value : option string) (current_case_id : string)
  : PanelContent (ListView (nat * string * Z * Q)) * list JsError :=
  reload net (Multi.hidden_url current_case_id (Multi.window_minutes hidden_minutes_value))
    Multi.renderHidden.

(** The [change] handler of [stats-filter]. *)
Definition statsFilterChange (net : Network (option (Payload Single.StatsRow)))
  (trend_person stats_filter : string) (current_case_id : string)
  : PanelContent (ListView (string * Q)) * list JsError :=
  reload net (Single.stats_url current_case_id (trim trend_person) stats_filter)
    Single.renderStats.

End Reload.

(** ** The upload manager *)

Module Upload.
Import Js.

Record File : Type := mkFile { name : string; size : nat }.

(** The per-file configuration object [{ file, type, unit }]. *)
Record Config : Type := mkConfig { file : File; type : string; unit : string }.

(** *** [this.filesMap]: a JavaScript [Map] keyed by file name

    Entries are kept in insertion order; setting a key that is present
    replaces its value in place. *)

Fixpoint map_set (m : list (string * Config)) (k : string) (v : Config)
  : list (string * Config) :=
  match m with
  | [] => [(k, v)]
  | (k', v') :: r => if String.eqb k' k then (k, v) :: r else (k', v') :: map_set r k v
  end.

Fixpoint map_get (m : list (string * Config)) (k : string) : option Config :=
  match m with
  | [] => None
  | (k', v') :: r => if String.eqb k' k then Some v' else map_get r k
  end.

Definition map_delete (m : list (string * Config)) (k : string) : list (string * Config) :=
  filter (fun kv => negb (String.eqb kv.1 k)) m.

(** *** The page elements the manager writes to *)

Record Button : Type := mkButton { disabled : bool; textContent : string }.
Record StatusMsg : Type := mkStatus { status_text : string; className : string }.

(** A child of the staging area: the hint shown while nothing is staged, or
    the row [row-<filename>] rendered from a configuration. *)
Inductive StagingChild : Type :=
| Hint (text : string)
| Row (filename : string) (config : Config).

(** The children of the staging area are followed as long as looking an
    element up by its id is decided by them; [None] is a staging area that
    is not followed any more (see [remove_row]). *)
Record Manager : Type := mkManager {
  filesMap : list (string * Config);
  staging : option (list StagingChild);   (* children of [file-staging-area] *)
  btn : option Button;                    (* [start-upload-btn], when the page has it *)
  statusEl : option StatusMsg             (* [upload-status-msg], when the page has it *)
}.

(** [new UploadManager()] on a page with the given elements. *)
Definition init (staging0 : list StagingChild) (btn0 : option Button)
  (statusEl0 : option StatusMsg) : Manager :=
  mkManager [] (Some staging0) btn0 statusEl0.

(** *** The markup of a row, as [renderRow] writes it

    [renderRow] puts the file name as it is into the markup of the row: in
    the [title] attribute and the text of the first cell, and between
    single quotes in the source of the three inline handlers. *)

(** The source of the [onchange] handler of the role select. *)
Definition type_onchange (filename : string) : string :=
  "uploadManager.updateConfig('" +:+ filename +:+ "', 'type', this.value)".

(** The source of the [onchange] handler of the unit select. *)
Definition unit_onchange (filename : string) : string :=
  "uploadManager.updateConfig('" +:+ filename +:+ "', 'unit', this.value)".

(** The source of the [onclick] handler of the bin button. *)
Definition remove_onclick (filename : string) : string :=
  "uploadManager.remove('" +:+ filename +:+ "')".

(** A byte that is plain text wherever the name is put: no control
    character, no quote (double, 34, or single, 39), no [&] (38), [<] (60)
    or [>] (62), no backslash (92). *)
Definition inert_byte (n : N) : bool :=
  ((32 <=? n) && negb (n =? 127) && negb (n =? 34) && negb (n =? 38) && negb (n =? 39)
   && negb (n =? 60) && negb (n =? 62) && negb (n =? 92))%N.

(** No U+2028 and no U+2029 (bytes [226 128 168] and [226 128 169]), which
    end a line of script source. *)
Fixpoint no_line_separator (l : list N) : bool :=
  match l with
  | [] => true
  | c :: r =>
      negb ((c =? 226)%N
            && match r with
               | 128%N :: d :: _ => (d =? 168)%N || (d =? 169)%N
               | _ => false
               end)
      && no_line_separator r
  end.

(** A file name that is plain text in the markup of its row. For such a
    name the row holds the name as text and no element of its own making,
    and the three handlers are the calls their sources spell:
    [updateConfig(filename, 'type', this.value)],
    [updateConfig(filename, 'unit', this.value)] and [remove(filename)].
    What the markup written from any other name holds, and what its handlers
    do, is not followed. *)
Definition inert (filename : string) : bool :=
  forallb inert_byte (bytes filename) && no_line_separator (bytes filename).

(** The [value] of each [<option>] of the two selects. *)

Inductive TypeChoice : Type := Screening | Receiver | Thief.
Inductive UnitChoice : Type := Yuan | Fen | Jiao.

Definition type_value (c : TypeChoice) : string :=
  match c with
  | Screening => "排查人员"
  | Receiver => "收脏人员"
  | Thief => "盗窃人员"
  end.

Definition unit_value (c : UnitChoice) : string :=
  match c with
  | Yuan => "yuan"
  | Fen => "fen"
  | Jiao => "jiao"
  end.

(** The text of each unit [<option>]. *)
Definition unit_label (c : UnitChoice) : string :=
  match c with
  | Yuan => "元"
  | Fen => "分 (÷100)"
  | Jiao => "角 (÷10)"
  end.

(** *** Methods *)

Definition cyan : string := "mr-auto self-center text-sm text-cyan-400".
Definition green : string := "mr-auto self-center text-sm text-green-400".
Definition red : string := "mr-auto self-center text-sm text-red-400".

Definition size_text (m : list (string * Config)) : string :=
  numberToString (Num (Z.of_nat (length m))).

Definition is_empty (m : list (string * Config)) : bool :=
  Nat.eqb (length m) 0.

(** The file names of the rows of the staging area, in page order. *)
Fixpoint row_names (children : list StagingChild) : list string :=
  match children with
  | [] => []
  | Row f _ :: r => f :: row_names r
  | Hint _ :: r => row_names r
  end.

(** [document.getElementById('row-' + filename)] and, when it finds an
    element, [remove()] on it: the first element with that id, in page
    order, goes. A row comes before what its markup holds. The markup of a
    row whose name is [inert] holds no element with an id; what the markup
    of another name holds is not followed, so the search stops there
    ([None]). *)
Fixpoint remove_row (filename : string) (children : list StagingChild)
  : option (list StagingChild) :=
  match children with
  | [] => Some []
  | Row f c :: r =>
      if String.eqb f filename then Some r
      else if inert f then (fun rest => Row f c :: rest) <$> remove_row filename r
      else None
  | Hint t :: r => (fun rest => Hint t :: rest) <$> remove_row filename r
  end.

Definition renderRow (filename : string) (config : Config) (children : list StagingChild)
  : option (list StagingChild) :=
  (fun rest => rest ++ [Row filename config]) <$> remove_row filename children.

Definition default_unit (f : File) : string :=
  if endsWith (toLowerCase (name f)) ".txt" then "fen" else "yuan".

(** The body of the [forEach] in [addFiles]. *)
Definition stage (acc : list (string * Config) * option (list StagingChild)) (f : File)
  : list (string * Config) * option (list StagingChild) :=
  let config := mkConfig f "排查人员" (default_unit f) in
  (map_set acc.1 (name f) config, acc.2 ≫= renderRow (name f) config).

Definition addFiles (fileList : list File) (m : Manager) : Manager :=
  let children := if is_empty (filesMap m) then Some [] else staging m in
  let acc := fold_left stage fileList (filesMap m, children) in
  mkManager acc.1 acc.2
    ((fun b => mkButton (is_empty acc.1) (textContent b)) <$> btn m)
    ((fun _ => mkStatus ("已添加 " +:+ size_text acc.1 +:+ " 个文件") cyan) <$> statusEl m).

(** The property [updateConfig] assigns: the row's selects pass the literals
    ['type'] and ['unit']. *)
Inductive ConfigKey : Type := KeyType | KeyUnit.

Definition assign (config : Config) (key : ConfigKey) (val : string) : Config :=
  match key with
  | KeyType => mkConfig (file config) val (unit config)
  | KeyUnit => mkConfig (file config) (type config) val
  end.

Definition updateConfig (filename : string) (key : ConfigKey) (val : string) (m : Manager)
  : Manager :=
  match map_get (filesMap m) filename with
  | Some config =>
      mkManager (map_set (filesMap m) filename (assign config key val))
        (staging m) (btn m) (statusEl m)
  | None => m
  end.

Definition remove (filename : string) (m : Manager) : Manager :=
  let files := map_delete (filesMap m) filename in
  let children := staging m ≫= remove_row filename in
  mkManager files
    (if is_empty files then Some [Hint "请点击上方按钮添加文件"] else children)
    ((fun b => mkButton (is_empty files) (textContent b)) <$> btn m)
    (statusEl m).

(** *** [uploadAll] *)

(** An entry [{ type, unit }] of the [configs] object. *)
Record FileConfig : Type := mkFileConfig { config_type : string; config_unit : string }.

(** [configs[k] = v] on a plain object: the key [__proto__] reaches the
    prototype setter and creates no own property. *)
Definition obj_set (o : gmap string FileConfig) (k : string) (v : FileConfig)
  : gmap string FileConfig :=
  if String.eqb k "__proto__" then o else <[k := v]> o.

(** The own properties of [configs] after the [forEach] of [uploadAll]:
    what [JSON.stringify(configs)] serialises. *)
Definition build_configs (m : list (string * Config)) : gmap string FileConfig :=
  fold_left (fun o kv => obj_set o kv.1 (mkFileConfig (type kv.2) (unit kv.2))) m ∅.

Inductive FormValue : Type :=
| Text (s : string)
| Blob (f : File)
| Json (configs : gmap string FileConfig).     (* the text [JSON.stringify(configs)] *)

(** What a call of [uploadAll] does up to its [await]: it alerts and
    returns, it throws, or it posts the form to [/api/upload]. *)
Inductive Effect : Type :=
| Alert (message : string)
| Throw (e : JsError)
| Post (url : string) (body : list (string * FormValue)).

Definition form_data (caseName caseId : string) (m : list (string * Config))
  : list (string * FormValue) :=
  [("case_name", Text caseName); ("case_id", Text caseId)]
  ++ map (fun kv => ("files", Blob (file kv.2))) m
  ++ [("file_configs", Json (build_configs m))].

(** [upload_case_name] and [upload_case_id] are the values of the two
    inputs when the button is clicked. *)
Definition uploadAll (upload_case_name upload_case_id : string) (m : Manager)
  : Manager * Effect :=
  let caseName := trim upload_case_name in
  let caseId := trim upload_case_id in
  if String.eqb caseName "" || String.eqb caseId "" then (m, Alert "请填写案件名称和编号")
  else if is_empty (filesMap m) then (m, Alert "请至少添加一个文件")
  else
    match btn m with
    | None => (m, Throw TypeError)
    | Some _ =>
        (mkManager (filesMap m) (staging m)
           (Some (mkButton true "正在处理..."))
           ((fun _ => mkStatus ("正在上传 " +:+ size_text (filesMap m) +:+ " 个文件，请稍候...") cyan)
              <$> statusEl m),
         Post "/api/upload" (form_data caseName caseId (filesMap m)))
    end.

(** How the posted request ends: the reply says [success], or anything else
    (a rejected [fetch], a body that is not JSON, another status), with the
    message of the error caught. *)
Inductive UploadResult : Type :=
| Succeeded
| Failed (message : string).

(** The rest of [uploadAll] after the [await]; [Some 1000] is the timer that
    reloads the page. *)
Definition uploadSettled (r : UploadResult) (m : Manager) : Manager * option nat :=
  match r with
  | Succeeded =>
      (mkManager (filesMap m) (staging m) (btn m)
         ((fun _ => mkStatus "全部处理完成！正在刷新..." green) <$> statusEl m),
       Some 1000%nat)
  | Failed message =>
      (mkManager (filesMap m) (staging m)
         ((fun _ => mkButton false "开始处理并入库") <$> btn m)
         ((fun _ => mkStatus ("上传失败: " +:+ message) red) <$> statusEl m),
       None)
  end.

(** *** What a user can do on the page

    Files are chosen or dropped; a select of a row is changed or its bin
    button is clicked; the upload button is clicked; the request settles. *)

Inductive Event : Type :=
| SelectFiles (fileList : list File)                 (* file input, or a drop *)
| ChooseType (filename : string) (c : TypeChoice)    (* the first select of the row of [filename] *)
| ChooseUnit (filename : string) (c : UnitChoice)    (* the second select of that row *)
| ClickRemove (filename : string)                    (* the bin button of that row *)
| ClickUpload (upload_case_name upload_case_id : string)
| Settled (r : UploadResult).

(** The staging area is followed and holds a row for [filename]. *)
Definition has_row (filename : string) (m : Manager) : bool :=
  match staging m with
  | Some children => bool_decide (filename ∈ row_names children)
  | None => false
  end.

(** What an event does. The page is followed while every file name put
    into a row is [inert]: staging a file of another name, and an event on
    a row of another name or on a row that is not there, give [None]. On
    the row of an [inert] name a select calls [updateConfig] with the name,
    its literal key and the [value] of the option chosen, and the bin
    button calls [remove] with the name. *)
Definition step (m : Manager) (e : Event) : option Manager :=
  match e with
  | SelectFiles fileList =>
      if forallb (fun f => inert (name f)) fileList then Some (addFiles fileList m) else None
  | ChooseType filename c =>
      if has_row filename m && inert filename
      then Some (updateConfig filename KeyType (type_value c) m) else None
  | ChooseUnit filename c =>
      if has_row filename m && inert filename
      then Some (updateConfig filename KeyUnit (unit_value c) m) else None
  | ClickRemove filename =>
      if has_row filename m && inert filename then Some (remove filename m) else None
  | ClickUpload n i => Some (uploadAll n i m).1
  | Settled r => Some (uploadSettled r m).1
  end.

Fixpoint run (events : list Event) (m : Manager) : option Manager :=
  match events with
  | [] => Some m
  | e :: rest => step m e ≫= run rest
  end.

End Upload.

(** ** Ingestion: identity validation and commit *)

Module Ingestion.

(** Modelled from the spec: the ingestion service ([app/services/ingestion.py])
    is not among the sources. The conditions a batch can fail with. *)
Inductive Rejection : Type := UnrecognizedFormat | InvalidIdentity.

(** Modelled from the spec: the fields of a stored transaction that the
    normalization steps below write. *)
Record Transaction : Type := mkTransaction {
  case_id : string;
  person_identity : string;
  counterparty_name : string;
  amount : Q;
  raw_file_name : string;
  import_batch : nat
}.

(** Modelled from the spec: one upload event, a file of raw rows
    (counterparty, raw amount) with its declared person-role and the factor
    of its declared unit. *)
Record Batch : Type := mkBatch {
  batch_case_id : string;
  file_name : string;
  person_type : string;
  unit_factor : Q;
  raw_rows : list (string * Q)
}.

(** Modelled from the spec: the closed enumeration theft-person /
    fence-receiver / screening-subject, in the platform's own words. *)
Definition canonical_roles : list string := ["盗窃人员"; "收脏人员"; "排查人员"].

(** Modelled from the spec: step 1 of the pipeline, identity validation. *)
Definition valid_identity (role : string) : bool :=
  existsb (String.eqb role) canonical_roles.

(** Modelled from the spec: unit reconciliation, which the ingestion
    service does and the page does not. A raw amount is multiplied by the
    factor of the unit declared for its file, one of x1, x0.1 and x0.01;
    [yuan] is the full unit, [jiao] a tenth of it and [fen] a hundredth, as
    the labels of the unit select of the page say. *)
Definition declared_factor (unit_name : string) : option Q :=
  if String.eqb unit_name "yuan" then Some 1%Q
  else if String.eqb unit_name "jiao" then Some (1 # 10)%Q
  else if String.eqb unit_name "fen" then Some (1 # 100)%Q
  else None.

(** Modelled from the spec: the minimum absolute amount a stored row has. *)
Definition threshold : Q := 100.

(** Modelled from the spec: steps 1, 3, 4 and 5 of the pipeline on one batch.
    A batch whose role is outside the enumeration fails with
    [InvalidIdentity] and commits nothing; otherwise every raw amount is
    multiplied by the unit factor, rows under the threshold are skipped, the
    others are stamped and appended to the store, and the counts
    (imported, skipped) are returned. *)
Definition ingest (store : list Transaction) (batch_id : nat) (b : Batch)
  : list Transaction * (Rejection + nat * nat) :=
  if valid_identity (person_type b) then
    let converted := map (fun r => (r.1, (r.2 * unit_factor b)%Q)) (raw_rows b) in
    let kept := filter (fun r => Qle_bool threshold (Qabs r.2)) converted in
    (store ++ map (fun r => mkTransaction (batch_case_id b) (person_type b) r.1 r.2
                                          (file_name b) batch_id) kept,
     inr (length kept, (length converted - length kept)%nat))
  else (store, inl InvalidIdentity).

End Ingestion.

(** ** Vocabulary of the properties *)

Section Vocabulary.
Import Js Api Upload.

(** The edges the interaction card counts as large. *)
Definition large_edges (ls : list Multi.Link) : list Multi.Link :=
  filter (fun l => gt (Multi.value l) Multi.large_edge_threshold) ls.

(** The count of large edges the interaction card shows for a graph with
    the nodes [ns] and the edges [ls]. *)
Definition shown_large (ns : list string) (ls : list Multi.Link) : option nat :=
  match Multi.renderInteraction (Some (Multi.mkGraph (Some ns) (Some ls))) with
  | Resolved (Multi.Summary _ _ bigTrans _) => Some bigTrans
  | _ => None
  end.


(** The cell a tracing row is shown as. *)
Definition trace_cell (x : Multi.TraceRow) : string * string * Q :=
  (Multi.source x, Multi.target x, or0 (Multi.amount x)).

(** A response without rows: no payload, no [data] field, or an empty list. *)
Definition zero_rows {R : Type} (p : option (Payload R)) : Prop :=
  p = None \/ (exists d, p = Some d /\ data d = None) \/ (exists d, p = Some d /\ data d = Some []).

(** The same for the graph endpoint, whose list of rows is [nodes]. *)
Definition zero_nodes (g : option Multi.Graph) : Prop :=
  g = None \/ (exists d, g = Some d /\ Multi.nodes d = None)
  \/ (exists d, g = Some d /\ Multi.nodes d = Some []).

(** Reading a URL as its receiver does: the query is what follows the first
    [?]; it is cut into fields at every [&], and a field into a name and a
    value at its first [=]. [before c l] is what precedes the first [c]. *)
Fixpoint before (c : N) (l : list N) : list N :=
  match l with
  | [] => []
  | x :: r => if (x =? c)%N then [] else x :: before c r
  end.

(** What follows the first [c], when there is one. *)
Fixpoint after (c : N) (l : list N) : option (list N) :=
  match l with
  | [] => None
  | x :: r => if (x =? c)%N then Some r else after c r
  end.

(** The pieces between the [c]s; [cur] holds the piece being read, reversed. *)
Fixpoint fields (c : N) (l : list N) (cur : list N) : list (list N) :=
  match l with
  | [] => [rev cur]
  | x :: r => if (x =? c)%N then rev cur :: fields c r [] else fields c r (x :: cur)
  end.

(** The value of the first field named [key] ([61] is [=]). *)
Fixpoint lookup_field (key : list N) (fs : list (list N)) : option (list N) :=
  match fs with
  | [] => None
  | f :: r =>
      if bool_decide (before 61 f = key) then Some (default [] (after 61 f))
      else lookup_field key r
  end.

(** The value (still encoded) of the first query parameter called [key]
    ([63] is [?], [38] is [&]). *)
Definition query_param (url key : string) : option string :=
  match after 63 (bytes url) with
  | None => None
  | Some q => of_bytes <$> lookup_field (bytes key) (fields 38 q [])
  end.

(** The bytes [encodeURIComponent] can produce. *)
Definition uri_safe (n : N) : bool := uri_unreserved n || (n =? 37)%N.

(** The number a list of digit bytes writes, read after [v]. *)
Definition dval (ds : list N) (v : Z) : Z :=
  fold_left (fun v d => (10 * v + Z.of_N (d - 48))%Z) ds v.

(** The keys of [filesMap], in order. *)
Definition keys (m : list (string * Config)) : list string := fst <$> m.

(** The entry of [configs] a configuration is copied to. *)
Definition entry (c : Config) : FileConfig := mkFileConfig (type c) (unit c).

(** An entry filed under the name of its file, whose role and unit are
    values of the row's selects. *)
Definition selectable (kv : string * Config) : Prop :=
  name (file kv.2) = kv.1
  /\ (exists t, type kv.2 = type_value t)
  /\ (exists u, unit kv.2 = unit_value u).

(** What holds of [filesMap] however the page was used: keys are distinct
    and every entry is [selectable]. *)
Definition well_formed (m : list (string * Config)) : Prop :=
  NoDup (keys m) /\ Forall selectable m.

End Vocabulary.

(** ** Vocabulary of the further properties *)

Section FurtherVocabulary.
Import Js Upload.

(** A staging area that holds rows and no hint. *)
Definition rows_only (children : list StagingChild) : Prop :=
  forall t, Hint t ∉ children.

(** The children left when the first row of [filename] is taken out. *)
Fixpoint without_row (filename : string) (children : list StagingChild)
  : list StagingChild :=
  match children with
  | [] => []
  | Row f c :: r => if String.eqb f filename then r else Row f c :: without_row filename r
  | Hint t :: r => Hint t :: without_row filename r
  end.

(** Every row is the row of an [inert] name. *)
Definition clean (children : list StagingChild) : Prop :=
  Forall (fun f => inert f = true) (row_names children).

(** The staging area and the map agree: the rows, all of [inert] names,
    name the keys, each once. *)
Definition in_sync (files : list (string * Config)) (children : list StagingChild) : Prop :=
  NoDup (keys files) /\ rows_only children /\ clean children
  /\ row_names children ≡ₚ keys files.

(** What holds of the manager however the page was used: nothing is
    staged, or the staging area is followed and agrees with the map. *)
Definition synced (m : Manager) : Prop :=
  filesMap m = []
  \/ exists children, staging m = Some children /\ in_sync (filesMap m) children.

(** The values of the parts of a form called [key], in order. *)
Definition parts (key : string) (body : list (string * FormValue)) : list FormValue :=
  snd <$> filter (fun kv => kv.1 = key) body.

(** The value of a hexadecimal digit ([0-9], [A-F], [a-f]). *)
Definition unhex (c : N) : option N :=
  if ((48 <=? c) && (c <=? 57))%N then Some (c - 48)%N
  else if ((65 <=? c) && (c <=? 70))%N then Some (c - 55)%N
  else if ((97 <=? c) && (c <=? 102))%N then Some (c - 87)%N
  else None.

(** Decoding the value of a query parameter, as the receiver of a query
    does it: [+] is a space, [%XX] is the byte [XX], and a [%] that no two
    hexadecimal digits follow is kept ([43] is [+], [37] is [%]). *)
Fixpoint percent_decode (l : list N) : list N :=
  match l with
  | [] => []
  | c :: r =>
      if (c =? 43)%N then 32%N :: percent_decode r
      else if (c =? 37)%N then
        match r with
        | h :: lo :: r' =>
            match unhex h, unhex lo with
            | Some a, Some b => (16 * a + b)%N :: percent_decode r'
            | _, _ => c :: percent_decode r
            end
        | _ => c :: percent_decode r
        end
      else c :: percent_decode r
  end.

(** The decoded value of the first query parameter called [key]. *)
Definition decoded_param (url key : string) : option string :=
  (fun v => of_bytes (percent_decode (bytes v))) <$> query_param url key.

(** A query written from its parameters: [k1=v1&k2=v2&...]. *)
Fixpoint write_query (ps : list (list N * list N)) : list N :=
  match ps with
  | [] => []
  | p :: r =>
      match r with
      | [] => p.1 ++ 61%N :: p.2
      | _ => p.1 ++ 61%N :: p.2 ++ 38%N :: write_query r
      end
  end.

(** The value written for the first parameter called [key]. *)
Fixpoint assoc (key : list N) (ps : list (list N * list N)) : option (list N) :=
  match ps with
  | [] => None
  | p :: r => if bool_decide (p.1 = key) then Some p.2 else assoc key r
  end.

(** A parameter that a query can carry as it is: no [&] in its name or
    value, no [=] in its name. *)
Definition plain (p : list N * list N) : Prop :=
  Forall (fun x => x <> 38%N) p.1 /\ Forall (fun x => x <> 61%N) p.1
  /\ Forall (fun x => x <> 38%N) p.2.

End FurtherVocabulary.

(** * Properties *)

(** ** The primitives at work *)

Example parseInt10_examples :
  Js.parseInt10 "30" = Js.Num 30
  /\ Js.parseInt10 "  -45 min" = Js.Num (-45)
  /\ Js.parseInt10 "1.5" = Js.Num 1
  /\ Js.parseInt10 "abc" = Js.NaN
  /\ Js.parseInt10 "   " = Js.NaN.
Proof. repeat split. Qed.

Example numberToString_examples :
  Js.numberToString (Js.Num 30) = "30"
  /\ Js.numberToString (Js.Num 0) = "0"
  /\ Js.numberToString (Js.Num (-45)) = "-45"
  /\ Js.numberToString Js.NaN = "NaN".
Proof. repeat split. Qed.

Example large_number_examples :
  Js.parseInt10 "9007199254740993" = Js.Num 9007199254740992
  /\ Js.numberToString (Js.Num 9007199254740993) = "9007199254740992"
  /\ Js.numberToString (Js.Num (2 ^ 60)) = "1152921504606847000"
  /\ Js.numberToString (Js.Num (10 ^ 20)) = "100000000000000000000"
  /\ Js.numberToString (Js.Num (10 ^ 21)) = "1e+21"
  /\ Js.numberToString (Js.parseInt10 "-123456789012345678901234567890")
     = "-1.2345678901234568e+29"
  /\ Js.numberToString (Js.Num (10 ^ 23)) = "1e+23"
  /\ Js.round_double (10 ^ 400) = Js.Infinity false
  /\ Js.numberToString (Js.Num (- 10 ^ 400)) = "-Infinity".
Proof. vm_compute. repeat split; reflexivity. Qed.

Example row_markup_examples :
  Upload.unit_onchange "a.xlsx" = "uploadManager.updateConfig('a.xlsx', 'unit', this.value)"
  /\ Upload.inert "a.xlsx" = true
  /\ Upload.inert "对账单 (2024).csv" = true
  /\ Upload.unit_onchange "it's.csv" = "uploadManager.updateConfig('it's.csv', 'unit', this.value)"
  /\ Upload.inert "it's.csv" = false
  /\ Upload.inert "a<i id=row-b.csv>.csv" = false
  /\ Upload.step (Upload.init [] None None) (Upload.SelectFiles [Upload.mkFile "it's.csv" 1]) = None
  /\ Upload.remove_row "b.csv"
       [Upload.Row "a<i id=row-b.csv>.csv" (Upload.mkConfig (Upload.mkFile "a<i id=row-b.csv>.csv" 1) "排查人员" "yuan");
        Upload.Row "b.csv" (Upload.mkConfig (Upload.mkFile "b.csv" 1) "排查人员" "yuan")]
     = None.
Proof. repeat split. Qed.

Example trim_examples :
  Js.trim "  案件 A  " = "案件 A"
  /\ Js.trim "　CASE-001　" = "CASE-001"
  /\ Js.trim "   " = "".
Proof. repeat split. Qed.

Example encodeURIComponent_examples :
  Js.encodeURIComponent "CASE-001" = "CASE-001"
  /\ Js.encodeURIComponent "a b&c=d?e#f" = "a%20b%26c%3Dd%3Fe%23f"
  /\ Js.encodeURIComponent "案" = "%E6%A1%88".
Proof. repeat split. Qed.

Example endsWith_examples :
  Js.endsWith "bill.txt" ".txt" = true
  /\ Js.endsWith "BILL.TXT" ".txt" = false
  /\ Js.endsWith (Js.toLowerCase "BILL.TXT") ".txt" = true
  /\ Js.endsWith "txt" ".txt" = false.
Proof. repeat split. Qed.

Example query_param_examples :
  query_param "/api/analysis/single/stats?case_id=C%201&person=&filter=net" "case_id"
  = Some "C%201"
  /\ query_param "/api/analysis/single/stats?case_id=C%201&person=&filter=net" "person"
     = Some ""
  /\ query_param "/api/analysis/single/stats?case_id=C%201&person=&filter=net" "filter"
     = Some "net"
  /\ query_param "/api/analysis/single/stats?case_id=C%201&person=&filter=net" "minutes"
     = None
  /\ query_param "/api/cases" "case_id" = None.
Proof. repeat split. Qed.

(** The scenarios of the specification on the ingestion model: at the unit
    hundredth a raw 15000 is stored (as 150) and a raw 9999 is skipped. *)
Example ingest_scenario :
  exists t,
    Ingestion.ingest [] 1
      (Ingestion.mkBatch "CASE-001" "a.txt" "盗窃人员" (1 # 100)
         [("甲", 15000%Q); ("乙", 9999%Q)])
    = ([t], inr (1, 1))
    /\ Ingestion.counterparty_name t = "甲" /\ (Ingestion.amount t == 150)%Q.
Proof. eexists. repeat split. Qed.

(** ** Strings *)

Section StringFacts.
Import Js.

Lemma of_bytes_empty (l : list N) : of_bytes l = "" <-> l = [].
Proof.
  unfold of_bytes. destruct l as [|c r]; simpl; split; congruence.
Qed.

Lemma bytes_empty (s : string) : bytes s = [] <-> s = "".
Proof.
  unfold bytes. destruct s; simpl; split; congruence.
Qed.

Lemma encode_byte_nonempty (n : N) : encode_byte n <> [].
Proof. unfold encode_byte. destruct (uri_unreserved n); discriminate. Qed.

(** A string is encoded to the empty string exactly when it is empty. *)
Lemma encodeURIComponent_empty (s : string) : encodeURIComponent s = "" <-> s = "".
Proof.
  unfold encodeURIComponent. rewrite of_bytes_empty, <- bytes_empty.
  destruct (bytes s) as [|c r]; simpl; [tauto|].
  split; [|discriminate]. intros H. apply app_eq_nil in H as [H _].
  by apply encode_byte_nonempty in H.
Qed.

Lemma append_empty_r (s : string) : s +:+ "" = s.
Proof.
  induction s as [|c s IH]; [done|].
  change (String c (s +:+ "") = String c s). by rewrite IH.
Qed.

Lemma trim_empty : trim "" = "".
Proof. reflexivity. Qed.

Lemma truthy_spec (x : option string) : truthy x = true <-> exists s, x = Some s /\ s <> "".
Proof.
  destruct x as [[|c r]|]; simpl; split; try discriminate; try (intros (s & H & Hs); congruence).
  intros _. by exists (String c r).
Qed.

Lemma bytes_app (s t : string) : bytes (s +:+ t) = bytes s ++ bytes t.
Proof.
  unfold bytes. induction s as [|c s IH]; [done|].
  change (String c s +:+ t) with (String c (s +:+ t)). simpl. by rewrite IH.
Qed.

Lemma of_bytes_bytes (s : string) : of_bytes (bytes s) = s.
Proof.
  unfold of_bytes, bytes. induction s as [|c s IH]; [done|].
  simpl. by rewrite ascii_N_embedding, IH.
Qed.

Lemma bytes_of_bytes (l : list N) :
  Forall (fun n => (n < 256)%N) l -> bytes (of_bytes l) = l.
Proof.
  unfold of_bytes, bytes. induction 1 as [|n l Hn Hl IH]; [done|].
  simpl. by rewrite N_ascii_embedding, IH.
Qed.

Lemma bytes_bounded (s : string) : Forall (fun n => (n < 256)%N) (bytes s).
Proof.
  unfold bytes. induction s as [|c s IH]; simpl; constructor; [apply N_ascii_bounded|done].
Qed.

(** A property of bytes holds of all of them once it holds of the 256. *)
Lemma for_all_bytes (P : N -> bool) :
  forallb P (map N.of_nat (seq 0 256)) = true -> forall n, (n < 256)%N -> P n = true.
Proof.
  intros H n Hn. rewrite forallb_forall in H. apply H.
  apply in_map_iff. exists (N.to_nat n). split; [lia|]. apply in_seq. lia.
Qed.

Lemma encode_byte_safe (n : N) :
  (n < 256)%N -> forallb uri_safe (encode_byte n) = true.
Proof.
  revert n. apply (for_all_bytes (fun n => forallb uri_safe (encode_byte n))).
  vm_compute. reflexivity.
Qed.

Lemma uri_safe_bounded (n : N) : uri_safe n = true -> (n < 256)%N.
Proof.
  unfold uri_safe, uri_unreserved.
  rewrite !orb_true_iff, !andb_true_iff, !N.leb_le, !N.eqb_eq. lia.
Qed.

Lemma encoded_bytes (s : string) :
  bytes (encodeURIComponent s) = concat (map encode_byte (bytes s))
  /\ Forall (fun n => uri_safe n = true) (bytes (encodeURIComponent s)).
Proof.
  assert (H : Forall (fun n => uri_safe n = true) (concat (map encode_byte (bytes s)))).
  { induction (bytes_bounded s) as [|n l Hn Hl IH]; simpl; [constructor|].
    apply Forall_app. split; [|done].
    apply Forall_forall. intros x Hx. apply list_elem_of_In in Hx.
    pose proof (encode_byte_safe n Hn) as Hs. rewrite forallb_forall in Hs. by apply Hs. }
  unfold encodeURIComponent. rewrite bytes_of_bytes; [done|].
  eapply Forall_impl; [exact H|]. intros n. apply uri_safe_bounded.
Qed.

Lemma after_skip (c : N) (p r : list N) :
  Forall (fun x => x <> c) p -> after c (p ++ c :: r) = Some r.
Proof.
  induction 1 as [|x p Hx Hp IH]; simpl.
  - by rewrite N.eqb_refl.
  - by apply N.eqb_neq in Hx as ->.
Qed.

Lemma before_skip (c : N) (p r : list N) :
  Forall (fun x => x <> c) p -> before c (p ++ c :: r) = p.
Proof.
  induction 1 as [|x p Hx Hp IH]; simpl.
  - by rewrite N.eqb_refl.
  - apply N.eqb_neq in Hx as ->. by rewrite IH.
Qed.

Lemma fields_skip (c : N) (p r cur : list N) :
  Forall (fun x => x <> c) p -> fields c (p ++ r) cur = fields c r (rev p ++ cur).
Proof.
  intros H. revert cur. induction H as [|x p Hx Hp IH]; intros cur; simpl; [done|].
  apply N.eqb_neq in Hx as ->. rewrite IH. by rewrite <- app_assoc.
Qed.

(** The first field of a query: what precedes the first [&]. *)
Lemma fields_first (p r : list N) :
  Forall (fun x => x <> 38%N) p ->
  (r = [] \/ exists r', r = 38%N :: r') ->
  exists more, fields 38 (p ++ r) [] = p :: more.
Proof.
  intros Hp Hr. rewrite fields_skip by done. rewrite app_nil_r.
  destruct Hr as [-> | [r' ->]]; simpl; rewrite rev_involutive; by eexists.
Qed.

End StringFacts.

(** ** Query strings *)

Section QueryFacts.
Import Js.

Lemma no_byte_Forall (c : N) (l : list N) :
  forallb (fun x => negb (x =? c)%N) l = true -> Forall (fun x => x <> c) l.
Proof.
  rewrite forallb_forall. intros H. apply Forall_forall. intros x Hx%list_elem_of_In.
  apply H in Hx. apply negb_true_iff in Hx. by apply N.eqb_neq.
Qed.

Lemma uri_safe_no_byte (c : N) (l : list N) :
  uri_safe c = false -> Forall (fun n => uri_safe n = true) l -> Forall (fun x => x <> c) l.
Proof.
  intros Hc H. eapply Forall_impl; [exact H|]. intros x Hx ->. congruence.
Qed.

Lemma fields_last (c : N) (p : list N) :
  Forall (fun x => x <> c) p -> fields c p [] = [p].
Proof.
  intros H. rewrite <- (app_nil_r p) at 1. rewrite fields_skip by done.
  simpl. by rewrite app_nil_r, rev_involutive.
Qed.

(** The first and the second parameter of a query, on bytes. *)
Lemma lookup_first_field (path k1 v1 rest : list N) :
  Forall (fun x => x <> 63%N) path ->
  Forall (fun x => x <> 38%N) k1 -> Forall (fun x => x <> 61%N) k1 ->
  Forall (fun x => x <> 38%N) v1 ->
  rest = [] \/ (exists r, rest = 38%N :: r) ->
  exists q, after 63 (path ++ 63%N :: k1 ++ 61%N :: v1 ++ rest) = Some q
            /\ lookup_field k1 (fields 38 q []) = Some v1.
Proof.
  intros Hp Hk Hk' Hv Hrest. eexists. split; [by apply after_skip|].
  destruct (fields_first (k1 ++ 61%N :: v1) rest) as [more Hf]; [|done|].
  { apply Forall_app. split; [done|]. by constructor. }
  rewrite <- app_assoc in Hf. simpl in Hf. rewrite Hf. simpl.
  rewrite before_skip, after_skip by done. by rewrite bool_decide_eq_true_2.
Qed.

Lemma lookup_second_field (path k1 v1 k2 v2 : list N) :
  Forall (fun x => x <> 63%N) path ->
  Forall (fun x => x <> 38%N) k1 -> Forall (fun x => x <> 61%N) k1 ->
  Forall (fun x => x <> 38%N) v1 ->
  Forall (fun x => x <> 38%N) k2 -> Forall (fun x => x <> 61%N) k2 ->
  Forall (fun x => x <> 38%N) v2 ->
  k1 <> k2 ->
  exists q, after 63 (path ++ 63%N :: k1 ++ 61%N :: v1 ++ 38%N :: k2 ++ 61%N :: v2) = Some q
            /\ lookup_field k2 (fields 38 q []) = Some v2.
Proof.
  intros Hp Hk1 Hk1' Hv1 Hk2 Hk2' Hv2 Hne. eexists. split; [by apply after_skip|].
  assert (H1 : Forall (fun x => x <> 38%N) (k1 ++ 61%N :: v1)).
  { apply Forall_app. split; [done|]. by constructor. }
  assert (H2 : Forall (fun x => x <> 38%N) (k2 ++ 61%N :: v2)).
  { apply Forall_app. split; [done|]. by constructor. }
  replace (k1 ++ 61%N :: v1 ++ 38%N :: k2 ++ 61%N :: v2)
    with ((k1 ++ 61%N :: v1) ++ 38%N :: (k2 ++ 61%N :: v2))
    by (by rewrite <- app_assoc).
  rewrite fields_skip by done. rewrite app_nil_r. cbn [fields]. rewrite N.eqb_refl.
  rewrite fields_last by done. rewrite rev_involutive. cbn [lookup_field].
  rewrite !before_skip, !after_skip by done.
  rewrite bool_decide_eq_false_2 by done. by rewrite bool_decide_eq_true_2.
Qed.

(** The query parameter [case_id] of a URL built as the loaders build it. *)
Lemma query_param_case_id (path id rest : string) :
  forallb (fun x => negb (x =? 63)%N) (bytes path) = true ->
  rest = "" \/ (exists r, rest = "&" +:+ r) ->
  query_param (path +:+ "?case_id=" +:+ encodeURIComponent id +:+ rest) "case_id"
  = Some (encodeURIComponent id).
Proof.
  intros Hpath Hrest. unfold query_param. rewrite !bytes_app.
  destruct (encoded_bytes id) as [_ Hsafe].
  destruct (lookup_first_field (bytes path) (bytes "case_id")
              (bytes (encodeURIComponent id)) (bytes rest)) as (q & Hq & Hl);
    try (by apply no_byte_Forall).
  { by apply (uri_safe_no_byte 38). }
  { destruct Hrest as [-> | [r ->]]; [by left|right]. rewrite bytes_app. by eexists. }
  change (bytes "?case_id=" ++ bytes (encodeURIComponent id) ++ bytes rest)
    with (63%N :: bytes "case_id" ++ 61%N :: bytes (encodeURIComponent id) ++ bytes rest).
  rewrite Hq, Hl. simpl. by rewrite of_bytes_bytes.
Qed.

Lemma nat_digits_are_digits (fuel : nat) (n : N) (acc : list N) :
  Forall (fun d => (48 <= d <= 57)%N) acc ->
  Forall (fun d => (48 <= d <= 57)%N) (nat_digits fuel n acc).
Proof.
  revert n acc. induction fuel as [|fuel IH]; intros n acc Hacc; cbn [nat_digits]; [done|].
  assert (Hd : Forall (fun d => (48 <= d <= 57)%N) ((48 + n mod 10)%N :: acc)).
  { constructor; [|done]. assert (n mod 10 < 10)%N by (by apply N.mod_lt).
    cbv beta. generalize dependent (n mod 10)%N. intros r Hr. lia. }
  destruct (n <? 10)%N; [done|by apply IH].
Qed.

Lemma round_double_exact (z : Z) : (Z.abs z <= 2 ^ 53)%Z -> round_double z = Num z.
Proof. intros H. unfold round_double. by apply Z.leb_le in H as ->. Qed.

(** Up to [2^53] the text of a number is its decimal digits. *)
Lemma numberToString_exact (z : Z) :
  (Z.abs z <= 2 ^ 53)%Z ->
  numberToString (Num z)
  = (let d := of_bytes (nat_digits (S (N.to_nat (N.log2 (Z.abs_N z)))) (Z.abs_N z) []) in
     if (z <? 0)%Z then "-" +:+ d else d).
Proof.
  intros H. unfold numberToString. rewrite round_double_exact by done.
  by apply Z.leb_le in H as ->.
Qed.

Lemma digits_text_bytes (fuel : nat) (n : N) :
  Forall (fun b => (39 <= b < 256)%N) (nat_digits fuel n []).
Proof.
  eapply Forall_impl; [apply nat_digits_are_digits, Forall_nil_2|]. cbv beta. lia.
Qed.

Lemma nat_digits_cons (fuel : nat) (n : N) (acc : list N) :
  exists d ds, nat_digits (S fuel) n acc = d :: ds.
Proof.
  revert n acc. induction fuel as [|fuel IH]; intros n acc.
  - cbn [nat_digits]. destruct (n <? 10)%N; by eexists _, _.
  - change (nat_digits (S (S fuel)) n acc)
      with (if (n <? 10)%N then (48 + n mod 10)%N :: acc
            else nat_digits (S fuel) (n / 10) ((48 + n mod 10)%N :: acc)).
    destruct (n <? 10)%N; [by eexists _, _|apply IH].
Qed.

Lemma shortest_text_bytes (a : Z) :
  shortest_text a <> [] /\ Forall (fun b => (39 <= b < 256)%N) (shortest_text a).
Proof.
  unfold shortest_text. destruct (shortest _ a) as [s j].
  pose proof (digits_text_bytes (S (N.to_nat (N.log2 (Z.to_N s)))) (Z.to_N s)) as Hsd.
  destruct (nat_digits_cons (N.to_nat (N.log2 (Z.to_N s))) (Z.to_N s) []) as (d & rest & E).
  rewrite E in *. cbv zeta. destruct (_ <=? 21)%nat.
  - split; [done|]. apply Forall_app. split; [done|].
    apply Forall_forall. intros x Hx%list_elem_of_In%repeat_spec. lia.
  - split; [done|]. apply Forall_cons in Hsd as [Hd Hrest].
    constructor; [done|]. apply Forall_app. split.
    + destruct rest; [done|]. constructor; [lia|done].
    + constructor; [lia|]. constructor; [lia|]. apply digits_text_bytes.
Qed.

(** The text of a number, byte by byte: it is not empty and holds digits,
    letters, a sign, a point and nothing else. *)
Lemma numberToString_bytes (x : JsNumber) :
  exists l, numberToString x = of_bytes l /\ l <> []
            /\ Forall (fun b => (39 <= b < 256)%N) l.
Proof.
  assert (Hconst : forall t : string,
             t = "NaN" \/ t = "Infinity" \/ t = "-Infinity" ->
             exists l, t = of_bytes l /\ l <> [] /\ Forall (fun b => (39 <= b < 256)%N) l).
  { intros t [-> | [-> | ->]].
    - exists [78; 97; 78]%N. split; [done|]. split; [done|]. repeat constructor; lia.
    - exists [73; 110; 102; 105; 110; 105; 116; 121]%N.
      split; [done|]. split; [done|]. repeat constructor; lia.
    - exists [45; 73; 110; 102; 105; 110; 105; 116; 121]%N.
      split; [done|]. split; [done|]. repeat constructor; lia. }
  assert (Hsign : forall (neg : bool) l,
             l <> [] -> Forall (fun b => (39 <= b < 256)%N) l ->
             exists l', (if neg then "-" +:+ of_bytes l else of_bytes l) = of_bytes l'
                        /\ l' <> [] /\ Forall (fun b => (39 <= b < 256)%N) l').
  { intros neg l Hne Hl. destruct neg; [|by exists l].
    exists (45%N :: l). split; [done|]. split; [done|]. constructor; [lia|done]. }
  destruct x as [|z|neg]; [apply Hconst; tauto| |destruct neg; apply Hconst; tauto].
  unfold numberToString. destruct (round_double z) as [|v|neg];
    [apply Hconst; tauto| |destruct neg; apply Hconst; tauto].
  cbv zeta. destruct (Z.abs v <=? 2 ^ 53)%Z.
  - apply Hsign; [|apply digits_text_bytes].
    destruct (nat_digits_cons (N.to_nat (N.log2 (Z.abs_N v))) (Z.abs_N v) []) as (d & ds & ->).
    done.
  - destruct (shortest_text_bytes (Z.abs v)) as [Hne Hl]. by apply Hsign.
Qed.

(** The text of a number holds no [&]. *)
Lemma numberToString_no_amp (x : JsNumber) :
  Forall (fun b => b <> 38%N) (bytes (numberToString x)).
Proof.
  destruct (numberToString_bytes x) as (l & -> & _ & Hl).
  rewrite bytes_of_bytes by (eapply Forall_impl; [exact Hl|]; cbv beta; lia).
  eapply Forall_impl; [exact Hl|]. cbv beta. lia.
Qed.

(** The query parameter [minutes] of a hidden-accomplice URL. *)
Lemma query_param_minutes (id : string) (minutes : JsNumber) :
  query_param (Multi.hidden_url id minutes) "minutes" = Some (numberToString minutes).
Proof.
  unfold Multi.hidden_url, query_param. rewrite !bytes_app.
  destruct (encoded_bytes id) as [_ Hsafe].
  destruct (lookup_second_field (bytes "/api/analysis/multi/hidden") (bytes "case_id")
              (bytes (encodeURIComponent id)) (bytes "minutes")
              (bytes (numberToString minutes))) as (q & Hq & Hl);
    try (by apply no_byte_Forall); try done.
  { by apply (uri_safe_no_byte 38). }
  { apply numberToString_no_amp. }
  change (bytes "/api/analysis/multi/hidden?case_id=" ++ bytes (encodeURIComponent id)
          ++ bytes "&minutes=" ++ bytes (numberToString minutes))
    with (bytes "/api/analysis/multi/hidden" ++ 63%N :: bytes "case_id" ++ 61%N
          :: bytes (encodeURIComponent id) ++ 38%N :: bytes "minutes" ++ 61%N
          :: bytes (numberToString minutes)).
  rewrite Hq, Hl. simpl. by rewrite of_bytes_bytes.
Qed.

End QueryFacts.

(** ** [parseInt] and the text of a number *)

Section ParseFacts.
Import Js.

Lemma dval_shift (ds : list N) (v : Z) :
  dval ds v = (v * 10 ^ Z.of_nat (length ds) + dval ds 0)%Z.
Proof.
  revert v. induction ds as [|d ds IH]; intros v; unfold dval in *; simpl fold_left.
  - simpl. lia.
  - rewrite (IH (10 * v + _)%Z), (IH (10 * 0 + _)%Z).
    replace (Z.of_nat (length (d :: ds))) with (Z.succ (Z.of_nat (length ds)))
      by (simpl length; lia).
    rewrite Z.pow_succ_r by lia. lia.
Qed.

Lemma digits_prefix_all (ds : list N) (acc : option Z) :
  Forall (fun d => (48 <= d <= 57)%N) ds ->
  digits_prefix ds acc = match ds with [] => acc | _ => Some (dval ds (default 0%Z acc)) end.
Proof.
  intros H. revert acc. induction H as [|d ds Hd Hds IH]; intros acc; [done|].
  cbn [digits_prefix].
  assert (E : ((48 <=? d) && (d <=? 57))%N = true)
    by (apply andb_true_iff; split; apply N.leb_le; lia).
  rewrite E, IH. destruct ds; reflexivity.
Qed.

Lemma nat_digits_value (fuel : nat) (n : N) (acc : list N) :
  (n < 2 ^ N.of_nat fuel)%N ->
  dval (nat_digits fuel n acc) 0
  = (Z.of_N n * 10 ^ Z.of_nat (length acc) + dval acc 0)%Z.
Proof.
  revert n acc. induction fuel as [|fuel IH]; intros n acc Hn.
  - simpl in Hn. assert (n = 0%N) as -> by lia. simpl. lia.
  - cbn [nat_digits].
    assert (Hdm : n = (10 * (n / 10) + n mod 10)%N) by (by apply N.div_mod).
    assert (Hm : (n mod 10 < 10)%N) by (by apply N.mod_lt).
    set (q := (n / 10)%N) in *. set (r := (n mod 10)%N) in *. clearbody q r.
    assert (Hcons : dval ((48 + r)%N :: acc) 0
                    = (Z.of_N r * 10 ^ Z.of_nat (length acc) + dval acc 0)%Z).
    { unfold dval at 1. cbn [fold_left]. fold (dval acc (10 * 0 + Z.of_N (48 + r - 48))%Z).
      rewrite dval_shift. replace (48 + r - 48)%N with r by lia. lia. }
    destruct (n <? 10)%N eqn:E.
    + apply N.ltb_lt in E. rewrite Hcons. replace n with r by lia. done.
    + apply N.ltb_ge in E. rewrite IH.
      * rewrite Hcons.
        replace (Z.of_nat (length ((48 + r)%N :: acc))) with (Z.succ (Z.of_nat (length acc)))
          by (simpl length; lia).
        rewrite Z.pow_succ_r by lia.
        assert (Hz : Z.of_N n = (10 * Z.of_N q + Z.of_N r)%Z) by lia. rewrite Hz. ring.
      * rewrite Nat2N.inj_succ, N.pow_succ_r' in Hn. lia.
Qed.

Lemma nat_digits_nonempty (fuel : nat) (n : N) (acc : list N) :
  nat_digits (S fuel) n acc <> [].
Proof.
  revert n acc. induction fuel as [|fuel IH]; intros n acc.
  - cbn [nat_digits]. by destruct (n <? 10)%N.
  - change (nat_digits (S (S fuel)) n acc)
      with (if (n <? 10)%N then (48 + n mod 10)%N :: acc
            else nat_digits (S fuel) (n / 10) ((48 + n mod 10)%N :: acc)).
    destruct (n <? 10)%N; [done|apply IH].
Qed.

Lemma digit_cases (d : N) :
  (48 <= d <= 57)%N ->
  d ∈ [48; 49; 50; 51; 52; 53; 54; 55; 56; 57]%N.
Proof.
  intros H. rewrite !elem_of_cons. lia.
Qed.

(** [parseInt] on a string of digits reads the number they write. *)
Lemma parseInt10_digits (d : N) (ds : list N) :
  Forall (fun d => (48 <= d <= 57)%N) (d :: ds) ->
  parseInt10 (of_bytes (d :: ds)) = round_double (dval (d :: ds) 0).
Proof.
  intros H. unfold parseInt10. rewrite bytes_of_bytes.
  2:{ eapply Forall_impl; [exact H|]. cbv beta. lia. }
  assert (Hprefix : digits_prefix (d :: ds) None = Some (dval (d :: ds) 0))
    by (by rewrite digits_prefix_all).
  apply Forall_cons in H as [Hd _]. apply digit_cases in Hd.
  assert (Hws : ws_head (d :: ds) = 0%nat).
  { rewrite !elem_of_cons, elem_of_nil in Hd.
    destruct Hd as [->|[->|[->|[->|[->|[->|[->|[->|[->|[->|[]]]]]]]]]]]; reflexivity. }
  unfold trimStart_bytes. cbn [length strip]. rewrite Hws.
  assert (Hsign : (let '(sign, l) :=
                     match d :: ds with
                     | 45%N :: r => ((-1)%Z, r)
                     | 43%N :: r => (1%Z, r)
                     | _ => (1%Z, d :: ds)
                     end in
                   match digits_prefix l None with
                   | None => NaN
                   | Some m => round_double (sign * m)
                   end)
                  = match digits_prefix (d :: ds) None with
                    | None => NaN
                    | Some m => round_double (1 * m)
                    end).
  { rewrite !elem_of_cons, elem_of_nil in Hd.
    destruct Hd as [->|[->|[->|[->|[->|[->|[->|[->|[->|[->|[]]]]]]]]]]]; reflexivity. }
  rewrite Hsign, Hprefix. f_equal. lia.
Qed.

(** Round trip: the decimal text of a natural number up to [2^53] parses
    to it. *)
Lemma parseInt10_numberToString (n : N) :
  (n <= 2 ^ 53)%N ->
  parseInt10 (numberToString (Num (Z.of_N n))) = Num (Z.of_N n).
Proof.
  intros Hn.
  assert (Hz : (Z.abs (Z.of_N n) <= 2 ^ 53)%Z).
  { rewrite Z.abs_eq by lia. change (2 ^ 53)%Z with (Z.of_N (2 ^ 53)). lia. }
  rewrite numberToString_exact by done. cbv zeta.
  assert (Hneg : (Z.of_N n <? 0)%Z = false) by (apply Z.ltb_ge; lia).
  rewrite Hneg, Zabs2N.id. set (fuel := N.to_nat (N.log2 n)).
  pose proof (nat_digits_nonempty fuel n []) as Hne.
  pose proof (nat_digits_are_digits (S fuel) n [] (Forall_nil_2 _)) as Hds.
  assert (Hval : dval (nat_digits (S fuel) n []) 0 = Z.of_N n).
  { rewrite nat_digits_value.
    - unfold dval. simpl. lia.
    - subst fuel. rewrite Nat2N.inj_succ, N2Nat.id.
      destruct n as [|p]; [done|]. apply N.log2_spec. lia. }
  destruct (nat_digits (S fuel) n []) as [|d ds]; [done|].
  rewrite parseInt10_digits by done. rewrite Hval. by apply round_double_exact.
Qed.

End ParseFacts.

(** ** [fetchJSON] *)

Section FetchFacts.
Import Js Fetch.
Context {J : Type}.

(** C8, as amended. Once [fetch] has produced a response: an ok response
    makes [fetchJSON] settle as [json()] does (the parsed body, or the
    rejection of a body that does not parse); a response that is not ok makes
    it throw an [Error] carrying the status text; so a value is returned only
    for an ok response, and it is the parsed body. *)
Theorem fetchJSON_by_status (net : Network J) (url : string) (r : Response J) :
  net url = Resolved r ->
  (ok r = true -> fetchJSON net url = json r)
  /\ (ok r = false -> fetchJSON net url = Rejected (Error (statusText r)))
  /\ (forall v, fetchJSON net url = Resolved v <-> ok r = true /\ json r = Resolved v).
Proof.
  intros Hnet. unfold fetchJSON. rewrite Hnet.
  destruct (ok r); simpl; repeat split; try done.
  - intros H. by destruct H.
  - by intros [? ?].
Qed.

(** No response, no value: a rejected [fetch] rejects [fetchJSON] alike. *)
Lemma fetchJSON_network_failure (net : Network J) (url : string) (e : JsError) :
  net url = Rejected e -> fetchJSON net url = Rejected e.
Proof. intros H. unfold fetchJSON. by rewrite H. Qed.

End FetchFacts.

(** C8 as stated fails: an ok response whose body is not JSON is ok, yet
    [fetchJSON] returns no value. *)
Lemma fetchJSON_ok_without_value :
  let r := Fetch.mkResponse true "OK" (Js.Rejected Js.SyntaxError : Js.Outcome nat) in
  let net := fun _ : string => Js.Resolved r in
  ~ ((exists v, Fetch.fetchJSON net "/api/cases" = Js.Resolved v) <-> Fetch.ok r = true).
Proof.
  simpl. intros [_ H]. destruct (H eq_refl) as [v Hv]. discriminate.
Qed.

Lemma fetchJSON_by_status_witness :
  let r := Fetch.mkResponse false "Not Found" (Js.Resolved 7%nat) in
  let net := fun _ : string => Js.Resolved r in
  (Fetch.ok r = true -> Fetch.fetchJSON net "/api/cases" = Fetch.json r)
  /\ (Fetch.ok r = false ->
      Fetch.fetchJSON net "/api/cases" = Js.Rejected (Js.Error (Fetch.statusText r)))
  /\ (forall v, Fetch.fetchJSON net "/api/cases" = Js.Resolved v
                <-> Fetch.ok r = true /\ Fetch.json r = Js.Resolved v).
Proof.
  intros r net. apply (fetchJSON_by_status net "/api/cases" r). reflexivity.
Defined.

(** ** The render functions *)

Section RenderFacts.
Import Js Api.

Lemma large_edges_le (ls : list Multi.Link) : length (large_edges ls) <= length ls.
Proof. apply length_filter. Qed.

Lemma gt_threshold_iff (l : Multi.Link) :
  gt (Multi.value l) Multi.large_edge_threshold = true
  <-> exists q, Multi.value l = Some q /\ (10000 < q)%Q.
Proof.
  unfold gt, Multi.large_edge_threshold. destruct (Multi.value l) as [q|].
  - rewrite negb_true_iff. split.
    + intros H. exists q. split; [done|]. apply Qnot_le_lt. intros Hle.
      apply Qle_bool_iff in Hle. congruence.
    + intros (q' & [= <-] & Hlt). apply not_true_iff_false. intros Hle.
      apply Qle_bool_iff in Hle. by apply Qlt_not_le in Hlt.
  - split; [discriminate|]. by intros (q & ? & _).
Qed.

Lemma shown_large_cons (n : string) (ns : list string) (l : Multi.Link)
  (ls : list Multi.Link) :
  shown_large (n :: ns) ls = Some (length (large_edges ls))
  /\ shown_large (n :: ns) (l :: ls)
     = Some (if gt (Multi.value l) Multi.large_edge_threshold
             then S (length (large_edges ls)) else length (large_edges ls)).
Proof.
  unfold shown_large, Multi.renderInteraction, large_edges. cbn [Multi.nodes Multi.links].
  split; [done|].
  destruct (gt (Multi.value l) Multi.large_edge_threshold) eqn:E.
  - rewrite filter_cons_True; [done|]. cbv beta. rewrite E. exact I.
  - rewrite filter_cons_False; [done|]. cbv beta. rewrite E. exact id.
Qed.

(** The count of large edges on the interaction card, edge by edge: no edge
    gives 0; an edge whose value is a number strictly above 10000 adds one;
    any other edge, one of exactly 10000 or one without a value among them,
    adds nothing. *)
Theorem large_edge_counted (n : string) (ns : list string) (l : Multi.Link)
  (ls : list Multi.Link) :
  shown_large (n :: ns) [] = Some 0%nat
  /\ (exists b, shown_large (n :: ns) ls = Some b)
  /\ ((exists q, Multi.value l = Some q /\ (10000 < q)%Q) ->
      shown_large (n :: ns) (l :: ls) = S <$> shown_large (n :: ns) ls)
  /\ (~ (exists q, Multi.value l = Some q /\ (10000 < q)%Q) ->
      shown_large (n :: ns) (l :: ls) = shown_large (n :: ns) ls)
  /\ (Multi.value l = Some 10000%Q \/ Multi.value l = None ->
      shown_large (n :: ns) (l :: ls) = shown_large (n :: ns) ls).
Proof.
  destruct (shown_large_cons n ns l ls) as [Hls Hcons].
  split; [done|]. split; [by eexists|]. rewrite Hcons, Hls.
  split; [|split].
  - intros H. apply gt_threshold_iff in H. by rewrite H.
  - intros H. destruct (gt _ _) eqn:E; [|done]. by apply gt_threshold_iff in E.
  - intros [H|H]; unfold gt; rewrite H; done.
Qed.

(** C3. Whenever the interaction card shows counts, the edge count shown is
    the length of the whole edge list and the large-edge count is the number
    of edges above the threshold (so never more); and every graph with at
    least one node and an edge list is shown that way, whatever the number
    of large edges. *)
Theorem interaction_shows_every_edge (data : option Multi.Graph) :
  (forall n_nodes n_links big w,
      Multi.renderInteraction data = Resolved (Multi.Summary n_nodes n_links big w) ->
      exists d ls, data = Some d /\ Multi.links d = Some ls
                   /\ n_links = length ls
                   /\ big = length (large_edges ls)
                   /\ big <= n_links)
  /\ (forall d n ns ls,
         data = Some d -> Multi.nodes d = Some (n :: ns) -> Multi.links d = Some ls ->
         exists w, Multi.renderInteraction data
                   = Resolved (Multi.Summary (length (n :: ns)) (length ls)
                                 (length (large_edges ls)) w)).
Proof.
  split.
  - intros n_nodes n_links big w. unfold Multi.renderInteraction.
    destruct data as [d|]; [|discriminate].
    destruct (Multi.nodes d) as [[|n ns]|]; try discriminate.
    destruct (Multi.links d) as [ls|] eqn:Hls; [|discriminate].
    intros [= <- <- <- <-]. exists d, ls. repeat split; try done.
    apply large_edges_le.
  - intros d n ns ls -> Hn Hl. unfold Multi.renderInteraction. rewrite Hn, Hl.
    eexists. reflexivity.
Qed.



Lemma stolen_rows_shown (r : Multi.TraceRow) (rows : list Multi.TraceRow) :
  Multi.renderStolen (Some (mkPayload (Some (r :: rows))))
  = Rows (map trace_cell (take 50 (r :: rows))).
Proof. reflexivity. Qed.

(** C10. Whatever the tracing table shows is the first 50 rows of the
    returned list, in order; rows at position 50 and beyond are not shown. *)
Theorem stolen_rows_capped (p : option (Payload Multi.TraceRow))
  (shown : list (string * string * Q)) :
  Multi.renderStolen p = Rows shown ->
  exists rows, p = Some (mkPayload (Some rows))
               /\ shown = map trace_cell (take 50 rows)
               /\ length shown = Nat.min 50 (length rows)
               /\ (forall i, 50 <= i -> shown !! i = None).
Proof.
  destruct p as [[[[|r rows]|]]|]; try discriminate.
  rewrite stolen_rows_shown. intros H.
  assert (Hs : shown = map trace_cell (take 50 (r :: rows))) by congruence.
  exists (r :: rows). split; [done|]. split; [done|].
  assert (Hlen : length shown = Nat.min 50 (length (r :: rows)))
    by (rewrite Hs, length_map, length_take; lia).
  split; [exact Hlen|]. intros i Hi. apply lookup_ge_None. rewrite Hlen. lia.
Qed.

(** C7. On a response without rows each of the six render functions shows
    its empty-state message; the one that can throw does not, so the chain
    [fetchJSON(url).then(render)] resolves on such a response. *)
Theorem zero_rows_render_placeholder :
  (forall g, zero_nodes g ->
             Multi.renderInteraction g = Resolved (Multi.NoInteraction "暂无交互数据"))
  /\ (forall p, zero_rows p -> Multi.renderStolen p = Placeholder "未发现明显销赃特征")
  /\ (forall p, zero_rows p -> Multi.renderHidden p = Placeholder "未挖掘到隐形同伙")
  /\ (forall p, zero_rows p -> Single.renderTrend p = Single.NoTrend "暂无数据")
  /\ (forall p, zero_rows p -> Single.renderStats p = Placeholder "暂无相关统计")
  /\ (forall p, zero_rows p -> Single.renderKeywords p = Placeholder "未发现重点行业交易")
  /\ (forall (net : Fetch.Network (option Multi.Graph)) url r g,
         net url = Resolved r -> Fetch.ok r = true -> Fetch.json r = Resolved g ->
         zero_nodes g ->
         Fetch.then_ (Fetch.fetchJSON net url) Multi.renderInteraction
         = Resolved (Multi.NoInteraction "暂无交互数据")).
Proof.
  assert (Hgraph : forall g, zero_nodes g ->
            Multi.renderInteraction g = Resolved (Multi.NoInteraction "暂无交互数据")).
  { intros g [-> | [(d & -> & H) | (d & -> & H)]]; [done| |];
      unfold Multi.renderInteraction; by rewrite H. }
  split; [exact Hgraph|].
  repeat split; try (intros x [-> | [(d & -> & H) | (d & -> & H)]]; try reflexivity;
    cbv beta iota delta [Multi.renderStolen Multi.renderHidden
                         Single.renderTrend Single.renderStats Single.renderKeywords];
    by rewrite H).
  intros net url r g Hnet Hok Hjson Hg. unfold Fetch.fetchJSON.
  rewrite Hnet, Hok. simpl. rewrite Hjson. simpl. by apply Hgraph.
Qed.

End RenderFacts.

Lemma interaction_shows_every_edge_witness :
  let g := Multi.mkGraph (Some ["A"; "B"; "C"])
             (Some [Multi.mkLink "A" "B" (Some 12000%Q);
                    Multi.mkLink "A" "C" (Some 500%Q);
                    Multi.mkLink "B" "C" (Some 10000%Q)]) in
  exists d ls, Some g = Some d /\ Multi.links d = Some ls
               /\ 3 = length ls /\ 1 = length (large_edges ls) /\ 1 <= 3.
Proof.
  intros g. destruct (interaction_shows_every_edge (Some g)) as [H _].
  exact (H 3 3 1 _ eq_refl).
Defined.


Lemma stolen_rows_capped_witness :
  let rows := replicate 51 (Multi.mkTraceRow "A" "B" (Some 12000%Q)) in
  exists rows', Some (Api.mkPayload (Some rows)) = Some (Api.mkPayload (Some rows'))
                /\ replicate 50 ("A", "B", 12000%Q) = map trace_cell (take 50 rows')
                /\ length (replicate 50 ("A", "B", 12000%Q)) = Nat.min 50 (length rows')
                /\ (forall i, 50 <= i -> replicate 50 ("A", "B", 12000%Q) !! i = None).
Proof.
  intros rows.
  exact (stolen_rows_capped (Some (Api.mkPayload (Some rows)))
           (replicate 50 ("A", "B", 12000%Q)) eq_refl).
Defined.

Lemma zero_rows_render_placeholder_witness :
  Multi.renderInteraction (Some (Multi.mkGraph (Some []) None))
  = Js.Resolved (Multi.NoInteraction "暂无交互数据")
  /\ Multi.renderStolen (Some (Api.mkPayload (Some []))) = Api.Placeholder "未发现明显销赃特征"
  /\ Multi.renderHidden (Some (Api.mkPayload None)) = Api.Placeholder "未挖掘到隐形同伙"
  /\ Single.renderTrend None = Single.NoTrend "暂无数据"
  /\ Single.renderStats (Some (Api.mkPayload (Some []))) = Api.Placeholder "暂无相关统计"
  /\ Single.renderKeywords (Some (Api.mkPayload None)) = Api.Placeholder "未发现重点行业交易".
Proof.
  destruct zero_rows_render_placeholder as (H1 & H2 & H3 & H4 & H5 & H6 & _).
  split; [apply H1; right; right; by eexists|].
  split; [apply H2; right; right; by eexists|].
  split; [apply H3; right; left; by eexists|].
  split; [apply H4; by left|].
  split; [apply H5; right; right; by eexists|].
  apply H6; right; left; by eexists.
Defined.

(** ** The loaders *)

Section LoaderFacts.
Import Js.

Lemma multi_load_with_case_id (v : option string) (id : string) :
  id <> "" ->
  Multi.loadAllData v (Some id)
  = [ (Multi.interaction_url id, Multi.Interaction);
      (Multi.stolen_url id, Multi.Stolen);
      (Multi.hidden_url id (Multi.window_minutes v), Multi.Hidden) ].
Proof. destruct id; [done|reflexivity]. Qed.

Lemma single_load_with_case_id (person filter id : string) :
  id <> "" ->
  Single.loadAllData person filter (Some id)
  = [ (Single.trend_url id (trim person), Single.Trend);
      (Single.stats_url id (trim person) filter, Single.Stats);
      (Single.keywords_url id, Single.Keywords) ].
Proof. destruct id; [done|reflexivity]. Qed.

Lemma window_minutes_default (v : option string) :
  v = None \/ v = Some "" -> Multi.window_minutes v = Num 30.
Proof. by intros [-> | ->]. Qed.

Lemma window_minutes_supplied (s : string) :
  s <> "" -> Multi.window_minutes (Some s) = parseInt10 s.
Proof. by destruct s. Qed.

Lemma numberToString_nonempty (x : JsNumber) : numberToString x <> "".
Proof.
  destruct (numberToString_bytes x) as (l & -> & Hne & _). by rewrite of_bytes_empty.
Qed.

(** C4. A load for a case issues exactly one hidden-accomplice request, and
    so does the reload button; its [minutes] parameter is the text of the
    window. With the window field absent or empty the window is 30 and the
    parameter reads [30]; with a value in the field the window is what
    [parseInt(value, 10)] makes of it, so a field holding the decimal digits
    of a number of minutes (up to [2^53], which a double holds) asks for
    that number, in those digits. *)
Theorem hidden_window_default_30 (v : option string) (id : string) :
  id <> "" ->
  (forall u, (u, Multi.Hidden) ∈ Multi.loadAllData v (Some id)
             <-> u = Multi.hidden_url id (Multi.window_minutes v))
  /\ Multi.reloadHidden v id = [(Multi.hidden_url id (Multi.window_minutes v), Multi.Hidden)]
  /\ query_param (Multi.hidden_url id (Multi.window_minutes v)) "minutes"
     = Some (numberToString (Multi.window_minutes v))
  /\ (v = None \/ v = Some "" ->
      Multi.window_minutes v = Num 30
      /\ query_param (Multi.hidden_url id (Multi.window_minutes v)) "minutes" = Some "30")
  /\ (forall s, v = Some s -> s <> "" -> Multi.window_minutes v = parseInt10 s)
  /\ (forall n : N, (n <= 2 ^ 53)%N -> v = Some (numberToString (Num (Z.of_N n))) ->
      Multi.window_minutes v = Num (Z.of_N n)
      /\ query_param (Multi.hidden_url id (Multi.window_minutes v)) "minutes" = v).
Proof.
  intros Hid.
  split; [|split; [done|split; [apply query_param_minutes|split; [|split]]]].
  - intros u. rewrite multi_load_with_case_id by done.
    rewrite !elem_of_cons, elem_of_nil. split.
    + intros [[= _ ?] | [[= _ ?] | [[= ->] | []]]]; done.
    + intros ->. right; right; by left.
  - intros H. rewrite query_param_minutes. by rewrite (window_minutes_default v H).
  - intros s -> Hs. by rewrite (window_minutes_supplied s Hs).
  - intros n Hn ->. rewrite query_param_minutes.
    rewrite window_minutes_supplied by apply numberToString_nonempty.
    by rewrite parseInt10_numberToString.
Qed.

Lemma hidden_window_default_30_witness :
  (forall u, (u, Multi.Hidden) ∈ Multi.loadAllData (Some "") (Some "CASE-001")
             <-> u = "/api/analysis/multi/hidden?case_id=CASE-001&minutes=30")
  /\ Multi.window_minutes (Some "") = Num 30
  /\ query_param "/api/analysis/multi/hidden?case_id=CASE-001&minutes=30" "minutes" = Some "30"
  /\ Multi.reloadHidden (Some "9007199254740993") "CASE-001"
     = [("/api/analysis/multi/hidden?case_id=CASE-001&minutes=9007199254740992", Multi.Hidden)].
Proof.
  destruct (hidden_window_default_30 (Some "") "CASE-001") as (H1 & _ & _ & H4 & _);
    [discriminate|].
  destruct (hidden_window_default_30 (Some "9007199254740993") "CASE-001") as (_ & H2 & _);
    [discriminate|].
  split; [exact H1|]. split; [apply H4; by right|]. split; [apply H4; by right|exact H2].
Defined.

(** [loadAllData] checks the case id: a load without one (missing or
    empty) issues no request, on either dashboard; and every request a load
    issues carries, as its [case_id] parameter, the case id it was given,
    which is not empty. *)
Theorem load_requires_case_id :
  (forall v caseId, caseId = None \/ caseId = Some "" -> Multi.loadAllData v caseId = [])
  /\ (forall person filter caseId,
         caseId = None \/ caseId = Some "" -> Single.loadAllData person filter caseId = [])
  /\ (forall v caseId url panel,
         (url, panel) ∈ Multi.loadAllData v caseId ->
         exists id, caseId = Some id /\ id <> ""
                    /\ query_param url "case_id" = Some (encodeURIComponent id)
                    /\ encodeURIComponent id <> "")
  /\ (forall person filter caseId url panel,
         (url, panel) ∈ Single.loadAllData person filter caseId ->
         exists id, caseId = Some id /\ id <> ""
                    /\ query_param url "case_id" = Some (encodeURIComponent id)
                    /\ encodeURIComponent id <> "").
Proof.
  split; [by intros v caseId [-> | ->]|].
  split; [by intros person filter caseId [-> | ->]|].
  split.
  - intros v [[|c r]|] url panel; [by intros ?%elem_of_nil| |by intros ?%elem_of_nil].
    set (id := String c r). assert (Hid : id <> "") by done.
    rewrite multi_load_with_case_id by done.
    assert (Henc : encodeURIComponent id <> "") by (by rewrite encodeURIComponent_empty).
    rewrite !elem_of_cons, elem_of_nil.
    intros [[= -> _] | [[= -> _] | [[= -> _] | []]]]; exists id; (split; [done|]);
      (split; [done|]); (split; [|done]).
    + rewrite <- (query_param_case_id "/api/analysis/multi/interaction" id "");
        [by rewrite append_empty_r|done|by left].
    + rewrite <- (query_param_case_id "/api/analysis/multi/stolen_known" id "");
        [by rewrite append_empty_r|done|by left].
    + apply (query_param_case_id "/api/analysis/multi/hidden" id
               ("&minutes=" +:+ numberToString (Multi.window_minutes v))); [done|].
      right. by eexists.
  - intros person filter [[|c r]|] url panel; [by intros ?%elem_of_nil| |by intros ?%elem_of_nil].
    set (id := String c r). assert (Hid : id <> "") by done.
    rewrite single_load_with_case_id by done.
    assert (Henc : encodeURIComponent id <> "") by (by rewrite encodeURIComponent_empty).
    rewrite !elem_of_cons, elem_of_nil.
    intros [[= -> _] | [[= -> _] | [[= -> _] | []]]]; exists id; (split; [done|]);
      (split; [done|]); (split; [|done]).
    + apply (query_param_case_id "/api/analysis/single/trend" id
               ("&person=" +:+ encodeURIComponent (trim person))); [done|].
      right. by eexists.
    + apply (query_param_case_id "/api/analysis/single/stats" id
               ("&person=" +:+ encodeURIComponent (trim person)
                +:+ "&filter=" +:+ encodeURIComponent filter)); [done|].
      right. by eexists.
    + rewrite <- (query_param_case_id "/api/analysis/single/keywords" id "");
        [by rewrite append_empty_r|done|by left].
Qed.

End LoaderFacts.

Lemma load_requires_case_id_witness :
  Multi.loadAllData (Some "30") (Some "") = []
  /\ Single.loadAllData "" "net" None = []
  /\ exists id, Some "CASE-001" = Some id /\ id <> ""
                /\ query_param "/api/analysis/multi/stolen_known?case_id=CASE-001" "case_id"
                   = Some (Js.encodeURIComponent id)
                /\ Js.encodeURIComponent id <> "".
Proof.
  destruct load_requires_case_id as (H1 & H2 & H3 & _).
  split; [apply H1; by right|]. split; [apply H2; by left|].
  apply (H3 (Some "30") (Some "CASE-001") _ Multi.Stolen).
  apply list_elem_of_further, list_elem_of_here.
Defined.

(** The two panel-level reload handlers read the case id from the page and
    issue their request without checking it. *)
Remark reload_handlers_send_any_case_id (v : option string) (person filter : string) :
  Multi.reloadHidden v ""
  = [("/api/analysis/multi/hidden?case_id=&minutes="
      +:+ Js.numberToString (Multi.window_minutes v), Multi.Hidden)]
  /\ Single.reloadStats person filter ""
     = [("/api/analysis/single/stats?case_id=&person="
         +:+ Js.encodeURIComponent (Js.trim person)
         +:+ "&filter=" +:+ Js.encodeURIComponent filter, Single.Stats)].
Proof. split; reflexivity. Qed.


(** ** The upload manager *)

Section MapFacts.
Import Upload.

Lemma map_get_set_eq m k v : map_get (map_set m k v) k = Some v.
Proof.
  induction m as [|[k' v'] r IH]; simpl.
  - by rewrite String.eqb_refl.
  - destruct (String.eqb k' k) eqn:E; simpl.
    + by rewrite String.eqb_refl.
    + by rewrite E.
Qed.

Lemma map_get_set_ne m k k' v : k <> k' -> map_get (map_set m k v) k' = map_get m k'.
Proof.
  intros Hne. induction m as [|[k0 v0] r IH]; simpl.
  - by apply String.eqb_neq in Hne as ->.
  - destruct (String.eqb k0 k) eqn:E; simpl.
    + apply String.eqb_eq in E as ->. by apply String.eqb_neq in Hne as ->.
    + by rewrite IH.
Qed.

Lemma map_get_elem m k v : map_get m k = Some v -> (k, v) ∈ m.
Proof.
  induction m as [|[k0 v0] r IH]; simpl; [done|].
  destruct (String.eqb k0 k) eqn:E.
  - apply String.eqb_eq in E as ->. intros [= ->]. apply list_elem_of_here.
  - intros H. by apply list_elem_of_further, IH.
Qed.

Lemma map_get_not_key m k : k ∉ keys m -> map_get m k = None.
Proof.
  induction m as [|[k0 v0] r IH]; simpl; [done|].
  rewrite not_elem_of_cons. intros [Hne Hr].
  destruct (String.eqb k0 k) eqn:E; [by apply String.eqb_eq in E|by apply IH].
Qed.

Lemma keys_map_set m k v :
  keys (map_set m k v) = if bool_decide (k ∈ keys m) then keys m else keys m ++ [k].
Proof.
  induction m as [|[k0 v0] r IH]; simpl; [done|].
  destruct (String.eqb k0 k) eqn:E; simpl.
  - apply String.eqb_eq in E as ->. rewrite bool_decide_eq_true_2; [done|]. apply list_elem_of_here.
  - apply String.eqb_neq in E. rewrite IH.
    destruct (bool_decide (k ∈ keys r)) eqn:D.
    + apply bool_decide_eq_true_1 in D. rewrite bool_decide_eq_true_2; [done|].
      by apply list_elem_of_further.
    + apply bool_decide_eq_false_1 in D. rewrite bool_decide_eq_false_2; [done|].
      rewrite elem_of_cons. intros [->|?]; done.
Qed.

Lemma keys_map_set_NoDup m k v : NoDup (keys m) -> NoDup (keys (map_set m k v)).
Proof.
  intros H. rewrite keys_map_set. case_bool_decide; [done|].
  apply NoDup_app. split; [done|]. split; [|apply NoDup_singleton].
  intros x Hx ->%list_elem_of_singleton. done.
Qed.

Lemma keys_map_delete_NoDup m k : NoDup (keys m) -> NoDup (keys (map_delete m k)).
Proof.
  unfold keys, map_delete. induction m as [|[k0 v0] r IH]; simpl; [done|].
  rewrite NoDup_cons. intros [Hk Hr]. rewrite filter_cons. simpl.
  case_decide; [|by apply IH]. simpl. apply NoDup_cons. split; [|by apply IH].
  intros Hin. apply Hk. apply list_elem_of_fmap in Hin as ([k1 v1] & -> & Hin).
  apply list_elem_of_filter in Hin as [_ Hin]. apply list_elem_of_fmap. by exists (k1, v1).
Qed.

Lemma Forall_map_set (P : string * Config -> Prop) m k v :
  Forall P m -> P (k, v) -> Forall P (map_set m k v).
Proof.
  intros Hm Hv. induction Hm as [|[k0 v0] r H0 Hr IH]; simpl.
  - by constructor.
  - destruct (String.eqb k0 k); by constructor.
Qed.

End MapFacts.

Section UploadFacts.
Import Js Upload.

Lemma obj_set_lookup_eq (o : gmap string FileConfig) k v :
  k <> "__proto__" -> obj_set o k v !! k = Some v.
Proof.
  intros Hk. unfold obj_set. apply String.eqb_neq in Hk as ->. apply lookup_insert_eq.
Qed.

Lemma obj_set_lookup_ne (o : gmap string FileConfig) k k' v :
  k <> k' -> obj_set o k v !! k' = o !! k'.
Proof.
  intros Hk. unfold obj_set. destruct (String.eqb k "__proto__"); [done|].
  by apply lookup_insert_ne.
Qed.

Lemma fold_configs_lookup (m : list (string * Config)) (o : gmap string FileConfig) k :
  NoDup (keys m) -> k <> "__proto__" ->
  fold_left (fun o kv => obj_set o kv.1 (entry kv.2)) m o !! k
  = match map_get m k with Some c => Some (entry c) | None => o !! k end.
Proof.
  intros Hnd Hk. revert o. induction m as [|[k0 c0] r IH]; intros o; simpl; [done|].
  apply NoDup_cons in Hnd as [Hk0 Hr]. rewrite (IH Hr).
  destruct (String.eqb k0 k) eqn:E.
  - apply String.eqb_eq in E as ->. rewrite (map_get_not_key r k Hk0).
    by apply obj_set_lookup_eq.
  - apply String.eqb_neq in E. destruct (map_get r k); [done|]. by apply obj_set_lookup_ne.
Qed.

Lemma build_configs_lookup (m : list (string * Config)) k :
  NoDup (keys m) -> k <> "__proto__" -> build_configs m !! k = entry <$> map_get m k.
Proof.
  intros Hnd Hk. unfold build_configs.
  change (fold_left (fun o kv => obj_set o kv.1 (entry kv.2)) m ∅ !! k = entry <$> map_get m k).
  rewrite fold_configs_lookup by done. by destruct (map_get m k).
Qed.

Lemma fold_configs_proto (m : list (string * Config)) (o : gmap string FileConfig) :
  o !! "__proto__" = None ->
  fold_left (fun o kv => obj_set o kv.1 (entry kv.2)) m o !! "__proto__" = None.
Proof.
  revert o. induction m as [|[k0 c0] r IH]; intros o Ho; simpl; [done|].
  apply IH. unfold obj_set. destruct (String.eqb k0 "__proto__") eqn:E; [done|].
  apply String.eqb_neq in E. by rewrite lookup_insert_ne.
Qed.

(** A file called [__proto__] gets no entry in [configs]. *)
Remark build_configs_proto (m : list (string * Config)) : build_configs m !! "__proto__" = None.
Proof. by apply fold_configs_proto. Qed.

Lemma default_unit_selectable (f : File) :
  default_unit f = unit_value (if endsWith (toLowerCase (name f)) ".txt" then Fen else Yuan).
Proof. unfold default_unit. by destruct (endsWith _ _). Qed.

Lemma map_set_well_formed m k c :
  well_formed m -> selectable (k, c) -> well_formed (map_set m k c).
Proof.
  intros [Hnd Hall] Hc. split; [by apply keys_map_set_NoDup|by apply Forall_map_set].
Qed.

Lemma stage_well_formed acc f : well_formed acc.1 -> well_formed (stage acc f).1.
Proof.
  intros H. apply map_set_well_formed; [done|]. repeat split; simpl.
  - by exists Screening.
  - eexists. apply default_unit_selectable.
Qed.

Lemma fold_stage_well_formed fileList acc :
  well_formed acc.1 -> well_formed (fold_left stage fileList acc).1.
Proof.
  revert acc. induction fileList as [|f r IH]; intros acc H; simpl; [done|].
  by apply IH, stage_well_formed.
Qed.

Lemma map_get_selectable m k c : well_formed m -> map_get m k = Some c -> selectable (k, c).
Proof.
  intros [_ Hall] Hget. apply map_get_elem in Hget.
  rewrite Forall_forall in Hall. by apply Hall.
Qed.

Lemma method_well_formed m :
  well_formed (filesMap m) ->
  (forall fileList, well_formed (filesMap (addFiles fileList m)))
  /\ (forall filename c, well_formed (filesMap (updateConfig filename KeyType (type_value c) m)))
  /\ (forall filename c, well_formed (filesMap (updateConfig filename KeyUnit (unit_value c) m)))
  /\ (forall filename, well_formed (filesMap (remove filename m)))
  /\ (forall n i, well_formed (filesMap (uploadAll n i m).1))
  /\ (forall r, well_formed (filesMap (uploadSettled r m).1)).
Proof.
  intros H. split; [|split; [|split; [|split; [|split]]]].
  - intros fileList. by apply fold_stage_well_formed.
  - intros filename c. unfold updateConfig.
    destruct (map_get (filesMap m) filename) as [config|] eqn:E; [|done].
    simpl. apply map_set_well_formed; [done|].
    destruct (map_get_selectable _ _ _ H E) as (Hn & Ht & Hu). repeat split; simpl; eauto.
  - intros filename c. unfold updateConfig.
    destruct (map_get (filesMap m) filename) as [config|] eqn:E; [|done].
    simpl. apply map_set_well_formed; [done|].
    destruct (map_get_selectable _ _ _ H E) as (Hn & Ht & Hu). repeat split; simpl; eauto.
  - intros filename. destruct H as [Hnd Hall]. split; [by apply keys_map_delete_NoDup|].
    simpl. unfold map_delete. rewrite Forall_forall in Hall |- *.
    intros kv [_ Hin]%list_elem_of_filter. by apply Hall.
  - intros n i. unfold uploadAll. repeat case_match; done.
  - intros r. by destruct r.
Qed.

Lemma step_well_formed m e m' :
  step m e = Some m' -> well_formed (filesMap m) -> well_formed (filesMap m').
Proof.
  intros Hstep H.
  destruct (method_well_formed m H) as (Hadd & Htype & Hunit & Hrem & Hup & Hset).
  destruct e as [fileList|filename c|filename c|filename|n i|r]; simpl in Hstep;
    repeat case_match; try discriminate; injection Hstep as <-; auto.
Qed.

Lemma run_well_formed events m m' :
  run events m = Some m' -> well_formed (filesMap m) -> well_formed (filesMap m').
Proof.
  revert m. induction events as [|e r IH]; intros m Hrun H; simpl in Hrun.
  - by injection Hrun as <-.
  - destruct (step m e) as [m1|] eqn:E; [|done]. simpl in Hrun.
    eapply IH; [exact Hrun|]. by eapply step_well_formed.
Qed.

Lemma init_well_formed staging0 btn0 statusEl0 :
  well_formed (filesMap (init staging0 btn0 statusEl0)).
Proof. split; simpl; constructor. Qed.

End UploadFacts.

Section UploadClaims.
Import Js Upload.

(** C9. [uploadAll] posts to the upload endpoint only with a case name and a
    case id that are not empty (even once trimmed) and at least one staged
    file; when one of the three is missing it alerts and returns, the manager
    and the page left as they were, and nothing is sent. *)
Theorem uploadAll_preconditions (upload_case_name upload_case_id : string) (m : Manager) :
  (forall url body,
      (uploadAll upload_case_name upload_case_id m).2 = Post url body ->
      url = "/api/upload"
      /\ upload_case_name <> "" /\ upload_case_id <> ""
      /\ trim upload_case_name <> "" /\ trim upload_case_id <> ""
      /\ filesMap m <> [])
  /\ (upload_case_name = "" \/ upload_case_id = ""
      \/ trim upload_case_name = "" \/ trim upload_case_id = "" \/ filesMap m = [] ->
      exists message, uploadAll upload_case_name upload_case_id m = (m, Alert message)).
Proof.
  unfold uploadAll. split.
  - intros url body.
    destruct (String.eqb (trim upload_case_name) "") eqn:En; [discriminate|].
    destruct (String.eqb (trim upload_case_id) "") eqn:Ei; [discriminate|].
    destruct (is_empty (filesMap m)) eqn:Em; [discriminate|]. simpl.
    destruct (btn m); [|discriminate]. simpl. intros [= <- _].
    apply String.eqb_neq in En, Ei. repeat split; try done.
    + intros ->. by apply En.
    + intros ->. by apply Ei.
    + intros H. by rewrite H in Em.
  - assert (Hn : upload_case_name = "" -> trim upload_case_name = "") by (by intros ->).
    assert (Hi : upload_case_id = "" -> trim upload_case_id = "") by (by intros ->).
    intros H.
    assert (H' : trim upload_case_name = "" \/ trim upload_case_id = "" \/ filesMap m = [])
      by tauto.
    clear H Hn Hi. destruct H' as [-> | [-> | ->]].
    + by eexists.
    + rewrite orb_true_r. by eexists.
    + destruct (_ || _); by eexists.
Qed.

Lemma uploadAll_preconditions_witness :
  let m := addFiles [mkFile "a.xlsx" 10] (init [] (Some (mkButton true "开始处理并入库")) None) in
  exists message, uploadAll "   " "CASE-001" m = (m, Alert message).
Proof.
  intros m. destruct (uploadAll_preconditions "   " "CASE-001" m) as [_ H].
  apply H. right; right; left. reflexivity.
Defined.

(** A file just staged is filed under its name with the default role and
    the default unit (the last file of that name wins). *)
Lemma fold_stage_get (fileList : list File) acc (f : File) :
  f ∈ fileList ->
  exists f', f' ∈ fileList /\ name f' = name f
             /\ map_get (fold_left stage fileList acc).1 (name f)
                = Some (mkConfig f' "排查人员" (default_unit f')).
Proof.
  induction fileList as [|a r IH] using rev_ind; [by intros ?%elem_of_nil|].
  intros Hf. rewrite fold_left_app. simpl.
  destruct (decide (name a = name f)) as [E|E].
  - exists a. split; [apply elem_of_app; right; apply list_elem_of_here|]. split; [done|].
    rewrite <- E. apply map_get_set_eq.
  - apply elem_of_app in Hf as [Hf|Hf%list_elem_of_singleton]; [|by subst].
    destruct (IH Hf) as (f' & Hin & Hname & Hget). exists f'.
    split; [apply elem_of_app; by left|]. split; [done|].
    by rewrite map_get_set_ne.
Qed.

Lemma addFiles_get (fileList : list File) (m : Manager) (f : File) :
  f ∈ fileList ->
  exists f', f' ∈ fileList /\ name f' = name f
             /\ map_get (filesMap (addFiles fileList m)) (name f)
                = Some (mkConfig f' "排查人员"
                          (if endsWith (toLowerCase (name f)) ".txt" then "fen" else "yuan")).
Proof.
  intros Hf. unfold addFiles. simpl.
  destruct (fold_stage_get fileList
              (filesMap m, if is_empty (filesMap m) then Some [] else staging m) f Hf)
    as (f' & Hin & Hname & Hget).
  exists f'. split; [done|]. split; [done|]. rewrite Hget. unfold default_unit. by rewrite Hname.
Qed.

(** The request [uploadAll] posts carries, under [file_configs], the role and
    the unit of every staged file not called [__proto__]. *)
Lemma posted_configs (n i : string) (m m' : Manager) (url : string)
  (body : list (string * FormValue)) (filename : string) (config : Config) :
  well_formed (filesMap m) ->
  map_get (filesMap m) filename = Some config ->
  filename <> "__proto__" ->
  uploadAll n i m = (m', Post url body) ->
  exists configs, ("file_configs", Json configs) ∈ body
                  /\ configs !! filename = Some (mkFileConfig (type config) (unit config)).
Proof.
  intros [Hnd _] Hget Hname. unfold uploadAll.
  destruct (_ || _); [discriminate|]. destruct (is_empty _); [discriminate|].
  destruct (btn m); [|discriminate]. intros [= _ _ <-].
  exists (build_configs (filesMap m)). split.
  - unfold form_data. rewrite !elem_of_app. right; right. apply list_elem_of_here.
  - rewrite build_configs_lookup by done. by rewrite Hget.
Qed.

Lemma declared_factor_unit_value (u : UnitChoice) :
  Ingestion.declared_factor (unit_value u) ∈ [Some 1%Q; Some (1 # 10)%Q; Some (1 # 100)%Q].
Proof.
  destruct u; rewrite !elem_of_cons; [left|right; right; left|right; left]; reflexivity.
Qed.

(** C1, as amended. On a page that is followed (every name put into a row
    is [inert]), every staged file has a unit that is one of the three the
    select offers, and the factor that unit stands for is 1, 1/10 or 1/100;
    a request that is posted carries that unit under [file_configs] (for a
    file not called [__proto__]). And on any page, fresh or not, a file is
    staged with the unit [fen] when its name, lower-cased, ends in [.txt],
    and [yuan] otherwise. *)
Theorem staged_unit_declared :
  (forall (staging0 : list StagingChild) (btn0 : option Button) (statusEl0 : option StatusMsg)
          (events : list Event) (m : Manager) (filename : string) (config : Config),
      run events (init staging0 btn0 statusEl0) = Some m ->
      map_get (filesMap m) filename = Some config ->
      (exists u, unit config = unit_value u)
      /\ Ingestion.declared_factor (unit config)
         ∈ [Some 1%Q; Some (1 # 10)%Q; Some (1 # 100)%Q]
      /\ (forall n i m' url body,
             uploadAll n i m = (m', Post url body) -> filename <> "__proto__" ->
             exists configs, ("file_configs", Json configs) ∈ body
                             /\ config_unit <$> configs !! filename = Some (unit config)))
  /\ (forall (m : Manager) (fileList : list File) (f : File),
         f ∈ fileList ->
         exists c, map_get (filesMap (addFiles fileList m)) (name f) = Some c
                   /\ unit c = if endsWith (toLowerCase (name f)) ".txt" then "fen" else "yuan").
Proof.
  split.
  - intros staging0 btn0 statusEl0 events m filename config Hrun Hget.
    assert (Hwf : well_formed (filesMap m))
      by (eapply run_well_formed; [exact Hrun|apply init_well_formed]).
    destruct (map_get_selectable _ _ _ Hwf Hget) as (_ & _ & u & Hu). simpl in Hu.
    split; [by exists u|]. split; [rewrite Hu; apply declared_factor_unit_value|].
    intros n i m' url body Hpost Hname.
    destruct (posted_configs n i m m' url body filename config Hwf Hget Hname Hpost)
      as (configs & Hin & Hcfg).
    exists configs. split; [done|]. by rewrite Hcfg.
  - intros m fileList f Hf. destruct (addFiles_get fileList m f Hf) as (f' & _ & _ & H).
    eexists. split; [exact H|done].
Qed.

End UploadClaims.

(** C1 as stated fails: a name ending in [.TXT] does not end in [.txt], yet
    the file is staged with the unit [fen]. *)
Lemma upper_case_txt_defaults_to_fen :
  let f := Upload.mkFile "BILL.TXT" 2048 in
  let m := Upload.addFiles [f] (Upload.init [] None None) in
  Js.endsWith (Upload.name f) ".txt" = false
  /\ Upload.unit <$> Upload.map_get (Upload.filesMap m) (Upload.name f) = Some "fen"
  /\ Upload.unit <$> Upload.map_get (Upload.filesMap m) (Upload.name f)
     <> Some (if Js.endsWith (Upload.name f) ".txt" then "fen" else "yuan").
Proof. repeat split. discriminate. Qed.

Lemma staged_unit_declared_witness :
  let events := [Upload.SelectFiles [Upload.mkFile "BILL.TXT" 2048; Upload.mkFile "a.xlsx" 10];
                 Upload.ChooseUnit "a.xlsx" Upload.Jiao] in
  let config := Upload.mkConfig (Upload.mkFile "a.xlsx" 10) "排查人员" "jiao" in
  let fresh := Upload.init [] None None in
  (exists m, Upload.run events (Upload.init [] (Some (Upload.mkButton true "开始处理并入库")) None)
             = Some m
             /\ Upload.map_get (Upload.filesMap m) "a.xlsx" = Some config
             /\ forall n i m' url body,
                  Upload.uploadAll n i m = (m', Upload.Post url body) ->
                  exists configs, ("file_configs", Upload.Json configs) ∈ body
                                  /\ Upload.config_unit <$> configs !! "a.xlsx" = Some "jiao")
  /\ Ingestion.declared_factor (Upload.unit config)
     ∈ [Some 1%Q; Some (1 # 10)%Q; Some (1 # 100)%Q]
  /\ exists c, Upload.map_get (Upload.filesMap (Upload.addFiles [Upload.mkFile "b.TXT" 1] fresh))
                 "b.TXT" = Some c
               /\ Upload.unit c = "fen".
Proof.
  intros events config fresh.
  destruct staged_unit_declared as (Hstaged & Hdefault).
  destruct (Hstaged [] (Some (Upload.mkButton true "开始处理并入库")) None events _ "a.xlsx" config
              eq_refl eq_refl) as (_ & Hfactor & Hposted).
  split; [|split; [exact Hfactor|]].
  - eexists. split; [reflexivity|]. split; [reflexivity|].
    intros n i m' url body Hpost. apply (Hposted n i m' url body Hpost).
    apply String.eqb_neq. reflexivity.
  - apply (Hdefault fresh [Upload.mkFile "b.TXT" 1] (Upload.mkFile "b.TXT" 1)).
    apply list_elem_of_here.
Defined.

(** A file called [__proto__] is staged like any other, yet the request
    posted carries no entry for it. *)
Remark proto_file_not_carried :
  let m := Upload.addFiles [Upload.mkFile "__proto__" 10]
             (Upload.init [] (Some (Upload.mkButton true "开始处理并入库")) None) in
  Upload.unit <$> Upload.map_get (Upload.filesMap m) "__proto__" = Some "yuan"
  /\ exists m', Upload.uploadAll "案件A" "CASE-001" m
                = (m', Upload.Post "/api/upload"
                         [("case_name", Upload.Text "案件A"); ("case_id", Upload.Text "CASE-001");
                          ("files", Upload.Blob (Upload.mkFile "__proto__" 10));
                          ("file_configs", Upload.Json ∅)]).
Proof. split; [reflexivity|]. eexists. reflexivity. Qed.

(** ** Identity validation *)

Section IdentityClaims.
Import Upload.

Lemma valid_identity_spec (role : string) :
  Ingestion.valid_identity role = true <-> role ∈ Ingestion.canonical_roles.
Proof.
  unfold Ingestion.valid_identity, Ingestion.canonical_roles. simpl.
  rewrite !orb_true_iff, !String.eqb_eq, !elem_of_cons, elem_of_nil. split.
  - intros [?|[?|[?|?]]]; auto. discriminate.
  - intros [?|[?|[?|[]]]]; auto.
Qed.

Lemma type_value_canonical (t : TypeChoice) : type_value t ∈ Ingestion.canonical_roles.
Proof. apply valid_identity_spec. by destruct t. Qed.

(** A batch is committed or rejected as a whole: a role outside the
    enumeration leaves the store as it was. *)
Lemma ingest_invalid_identity store batch_id (b : Ingestion.Batch) :
  Ingestion.person_type b ∉ Ingestion.canonical_roles ->
  Ingestion.ingest store batch_id b = (store, inl Ingestion.InvalidIdentity).
Proof.
  intros H. unfold Ingestion.ingest.
  destruct (Ingestion.valid_identity _) eqn:E; [|done].
  by apply valid_identity_spec in E.
Qed.

Lemma ingest_valid_identity store batch_id (b : Ingestion.Batch) :
  Ingestion.person_type b ∈ Ingestion.canonical_roles ->
  exists rows counts,
    Ingestion.ingest store batch_id b = (store ++ rows, inr counts)
    /\ Forall (fun t => Ingestion.person_identity t = Ingestion.person_type b) rows.
Proof.
  intros H. apply valid_identity_spec in H. unfold Ingestion.ingest. rewrite H.
  eexists _, _. split; [reflexivity|]. apply Forall_forall. intros t Ht.
  apply list_elem_of_In, in_map_iff in Ht as (r & <- & _). done.
Qed.

(** On a page that is followed (every name put into a row is [inert]),
    the role of every staged file is a value of the role select, and a
    request that is posted carries it under [file_configs] (for a file not
    called [__proto__]); and on any page a file is staged with the role
    [排查人员]. *)
Theorem staged_role_selectable :
  (forall (staging0 : list StagingChild) (btn0 : option Button) (statusEl0 : option StatusMsg)
          (events : list Event) (m : Manager) (filename : string) (config : Config),
      run events (init staging0 btn0 statusEl0) = Some m ->
      map_get (filesMap m) filename = Some config ->
      (exists t, type config = type_value t)
      /\ (forall n i m' url body,
             uploadAll n i m = (m', Post url body) -> filename <> "__proto__" ->
             exists configs, ("file_configs", Json configs) ∈ body
                             /\ config_type <$> configs !! filename = Some (type config)))
  /\ (forall (m : Manager) (fileList : list File) (f : File),
         f ∈ fileList ->
         type <$> map_get (filesMap (addFiles fileList m)) (name f) = Some "排查人员").
Proof.
  split.
  - intros staging0 btn0 statusEl0 events m filename config Hrun Hget.
    assert (Hwf : well_formed (filesMap m))
      by (eapply run_well_formed; [exact Hrun|apply init_well_formed]).
    destruct (map_get_selectable _ _ _ Hwf Hget) as (_ & (t & Ht) & _). simpl in Ht.
    split; [by exists t|].
    intros n i m' url body Hpost Hname.
    destruct (posted_configs n i m m' url body filename config Hwf Hget Hname Hpost)
      as (configs & Hin & Hcfg).
    exists configs. split; [done|]. by rewrite Hcfg.
  - intros m fileList f Hf. destruct (addFiles_get fileList m f Hf) as (f' & _ & _ & H).
    by rewrite H.
Qed.

End IdentityClaims.

Lemma staged_role_selectable_witness :
  let events := [Upload.SelectFiles [Upload.mkFile "a.xlsx" 10];
                 Upload.ChooseType "a.xlsx" Upload.Thief] in
  let config := Upload.mkConfig (Upload.mkFile "a.xlsx" 10) "盗窃人员" "yuan" in
  (exists m, Upload.run events (Upload.init [] (Some (Upload.mkButton true "开始处理并入库")) None)
             = Some m
             /\ Upload.map_get (Upload.filesMap m) "a.xlsx" = Some config)
  /\ exists t, Upload.type config = Upload.type_value t.
Proof.
  intros events config.
  destruct staged_role_selectable as (H & _).
  destruct (H [] (Some (Upload.mkButton true "开始处理并入库")) None events _ "a.xlsx" config
              eq_refl eq_refl) as (Ht & _).
  split; [|exact Ht]. eexists. split; reflexivity.
Defined.

(** C2, at the input where the page breaks it. [renderRow] puts the file
    name between the quotes of the handler source as it is. With the files
    [x] and [x','type','嫌疑人');('.csv] staged, the role select of the
    second row has the source shown below, which calls
    [updateConfig('x', 'type', '嫌疑人')] whatever option is chosen: the
    file [x] then has a role that is no value of the select, the request
    posted declares it, and ingestion, as the spec has it, rejects the batch
    with [InvalidIdentity] and commits nothing. *)
Lemma crafted_name_sets_other_role :
  let crafted := "x','type','嫌疑人');('.csv" in
  let m := Upload.addFiles [Upload.mkFile "x" 1; Upload.mkFile crafted 1]
             (Upload.init [] (Some (Upload.mkButton true "开始处理并入库")) None) in
  let m' := Upload.updateConfig "x" Upload.KeyType "嫌疑人" m in
  Upload.type_onchange crafted
  = "uploadManager.updateConfig('x','type','嫌疑人');('.csv', 'type', this.value)"
  /\ Upload.inert crafted = false
  /\ Upload.type <$> Upload.map_get (Upload.filesMap m') "x" = Some "嫌疑人"
  /\ (forall t, Upload.type_value t <> "嫌疑人")
  /\ (exists m'' body configs,
        Upload.uploadAll "案件A" "CASE-001" m' = (m'', Upload.Post "/api/upload" body)
        /\ ("file_configs", Upload.Json configs) ∈ body
        /\ Upload.config_type <$> configs !! "x" = Some "嫌疑人")
  /\ Ingestion.valid_identity "嫌疑人" = false
  /\ Ingestion.ingest [] 1 (Ingestion.mkBatch "CASE-001" "x" "嫌疑人" 1 [("甲", 12000%Q)])
     = ([], inl Ingestion.InvalidIdentity).
Proof.
  intros crafted m m'.
  split; [reflexivity|]. split; [reflexivity|]. split; [reflexivity|].
  split; [intros t; apply String.eqb_neq; by destruct t|].
  split; [|split; reflexivity].
  eexists _, _, _. split; [reflexivity|]. split.
  - do 4 apply list_elem_of_further. apply list_elem_of_here.
  - reflexivity.
Qed.

(** ** Further properties of the upload manager *)

Section UploadMore.
Import Js Upload.

Lemma map_get_key m k c : map_get m k = Some c -> k ∈ keys m.
Proof.
  intros H%map_get_elem. apply list_elem_of_fmap. by exists (k, c).
Qed.

Lemma map_get_delete m k k' :
  map_get (map_delete m k) k' = if String.eqb k k' then None else map_get m k'.
Proof.
  unfold map_delete. induction m as [|[k0 c0] r IH]; simpl.
  - by destruct (String.eqb k k').
  - rewrite filter_cons. simpl. destruct (String.eqb k0 k) eqn:E0.
    + apply String.eqb_eq in E0 as ->. rewrite decide_False by (simpl; tauto).
      rewrite IH. by destruct (String.eqb k k').
    + rewrite decide_True by done. simpl. rewrite IH.
      destruct (String.eqb k0 k') eqn:E1; [|done].
      apply String.eqb_eq in E1 as ->. apply String.eqb_neq in E0.
      assert (k <> k') by congruence. by apply String.eqb_neq in H as ->.
Qed.

Lemma keys_map_delete m k : keys (map_delete m k) = filter (fun x => x <> k) (keys m).
Proof.
  unfold keys, map_delete. induction m as [|[k0 c0] r IH]; [done|].
  rewrite filter_cons, fmap_cons, filter_cons. simpl.
  destruct (String.eqb k0 k) eqn:E.
  - apply String.eqb_eq in E as ->. rewrite decide_False by (simpl; tauto).
    rewrite decide_False by tauto. exact IH.
  - apply String.eqb_neq in E. rewrite decide_True by done. rewrite decide_True by done.
    rewrite fmap_cons. simpl. by rewrite IH.
Qed.

Lemma is_empty_nil (m : list (string * Config)) : is_empty m = bool_decide (m = []).
Proof. by destruct m. Qed.

(** Choosing a role or a unit for a file rewrites that field of that file
    and nothing else: the file and its other field stay, every other file
    keeps its configuration, the order of the files and the page are
    untouched; for a name that is not staged nothing changes at all. *)
Theorem updateConfig_changes_one_field (filename : string) (key : ConfigKey) (val : string)
  (m : Manager) :
  let m' := updateConfig filename key val m in
  (forall k, map_get (filesMap m') k
             = if String.eqb filename k
               then (fun c => assign c key val) <$> map_get (filesMap m) filename
               else map_get (filesMap m) k)
  /\ (forall c, map_get (filesMap m) filename = Some c ->
                file (assign c key val) = file c
                /\ (key = KeyType -> type (assign c key val) = val /\ unit (assign c key val) = unit c)
                /\ (key = KeyUnit -> unit (assign c key val) = val /\ type (assign c key val) = type c))
  /\ keys (filesMap m') = keys (filesMap m)
  /\ staging m' = staging m /\ btn m' = btn m /\ statusEl m' = statusEl m
  /\ (map_get (filesMap m) filename = None -> m' = m).
Proof.
  unfold updateConfig. simpl.
  destruct (map_get (filesMap m) filename) as [c|] eqn:Hget; simpl.
  - split; [|split; [|split; [|done]]].
    + intros k. destruct (String.eqb filename k) eqn:E.
      * apply String.eqb_eq in E as <-. apply map_get_set_eq.
      * apply String.eqb_neq in E. by apply map_get_set_ne.
    + intros c' [= <-]. split; [by destruct key|]. split; by intros ->.
    + rewrite keys_map_set. rewrite bool_decide_eq_true_2; [done|]. by eapply map_get_key.
  - split; [|done]. intros k. destruct (String.eqb filename k) eqn:E; [|done].
    apply String.eqb_eq in E as <-. by rewrite Hget.
Qed.

Lemma remove_row_clean (k : string) (children : list StagingChild) :
  clean children -> remove_row k children = Some (without_row k children).
Proof.
  unfold clean. induction children as [|[t|f c] r IH]; simpl; intros H; [done| |].
  - by rewrite IH.
  - apply Forall_cons in H as [Hf Hr]. destruct (String.eqb f k); [done|].
    by rewrite Hf, IH.
Qed.

(** Removing a file forgets that file and no other, and keeps the order of
    the rest; the button is disabled and the hint is back exactly when
    nothing is left; otherwise, in a staging area whose rows are all rows
    of [inert] names, the first row of that file goes and nothing else. *)
Theorem remove_forgets_one_file (filename : string) (m : Manager) :
  let m' := remove filename m in
  (forall k, map_get (filesMap m') k
             = if String.eqb filename k then None else map_get (filesMap m) k)
  /\ keys (filesMap m') = filter (fun k => k <> filename) (keys (filesMap m))
  /\ (forall b, btn m = Some b ->
                btn m' = Some (mkButton (bool_decide (filesMap m' = [])) (textContent b)))
  /\ (filesMap m' = [] -> staging m' = Some [Hint "请点击上方按钮添加文件"])
  /\ (filesMap m' <> [] ->
      staging m' = staging m ≫= remove_row filename
      /\ forall children, staging m = Some children -> clean children ->
                          staging m' = Some (without_row filename children))
  /\ statusEl m' = statusEl m.
Proof.
  unfold remove. simpl. split; [intros k; apply map_get_delete|].
  split; [apply keys_map_delete|]. rewrite is_empty_nil.
  split; [by intros b ->|]. split; [|split; [|done]].
  - intros H. by rewrite bool_decide_eq_true_2.
  - intros H. rewrite bool_decide_eq_false_2 by done. split; [done|].
    intros children -> Hclean. simpl. by apply remove_row_clean.
Qed.

(** How an upload that was posted settles. While the request is out the
    button is disabled. After a success it stays disabled, the staged files
    are kept and the page reload is set for one second later. After a
    failure the button is enabled again with its first caption, the status
    line shows the error, and a second click with the same inputs posts the
    same form. *)
Theorem upload_attempt_settles (n i : string) (m m1 : Manager) (url : string)
  (body : list (string * FormValue)) :
  uploadAll n i m = (m1, Post url body) ->
  btn m1 = Some (mkButton true "正在处理...")
  /\ (let r := uploadSettled Succeeded m1 in
      btn r.1 = btn m1 /\ filesMap r.1 = filesMap m /\ staging r.1 = staging m
      /\ r.2 = Some 1000%nat)
  /\ (forall message,
         let r := uploadSettled (Failed message) m1 in
         btn r.1 = Some (mkButton false "开始处理并入库")
         /\ filesMap r.1 = filesMap m /\ staging r.1 = staging m
         /\ r.2 = None
         /\ (forall s, statusEl m = Some s ->
                       statusEl r.1 = Some (mkStatus ("上传失败: " +:+ message) red))
         /\ (uploadAll n i r.1).2 = Post url body).
Proof.
  unfold uploadAll.
  destruct (_ || _) eqn:E; [discriminate|].
  destruct (is_empty (filesMap m)) eqn:Em; [discriminate|].
  destruct (btn m) as [b|]; [|discriminate]. intros [= <- <- <-].
  cbv zeta. unfold uploadSettled. cbn [fst snd filesMap btn statusEl staging].
  split; [done|]. split; [done|]. intros message.
  split; [done|]. split; [done|]. split; [done|]. split; [done|].
  split; [by intros s ->|]. rewrite Em. done.
Qed.

Lemma fold_configs_not_key (m : list (string * Config)) (o : gmap string FileConfig) k :
  k ∉ keys m ->
  fold_left (fun o kv => obj_set o kv.1 (entry kv.2)) m o !! k = o !! k.
Proof.
  revert o. induction m as [|[k0 c0] r IH]; intros o Hk; simpl; [done|].
  unfold keys in Hk. rewrite fmap_cons in Hk. apply not_elem_of_cons in Hk as [Hne Hr].
  rewrite IH by done. apply obj_set_lookup_ne. simpl in Hne. congruence.
Qed.

Lemma build_configs_entries (m : list (string * Config)) k :
  NoDup (keys m) ->
  build_configs m !! k
  = if String.eqb k "__proto__" then None else entry <$> map_get m k.
Proof.
  intros Hnd. destruct (String.eqb k "__proto__") eqn:E.
  - apply String.eqb_eq in E as ->. apply build_configs_proto.
  - apply String.eqb_neq in E. by apply build_configs_lookup.
Qed.

Lemma parts_files (m : list (string * Config)) :
  parts "files" (map (fun kv => ("files", Blob (file kv.2))) m)
  = (fun kv => Blob (file kv.2)) <$> m.
Proof.
  unfold parts. induction m as [|kv r IH]; [done|].
  simpl map. rewrite filter_cons_True by done. rewrite !fmap_cons. simpl. by f_equal.
Qed.

Lemma parts_other (key : string) (m : list (string * Config)) :
  key <> "files" -> parts key (map (fun kv => ("files", Blob (file kv.2))) m) = [].
Proof.
  intros H. unfold parts. induction m as [|kv r IH]; [done|].
  simpl map. rewrite filter_cons_False by (simpl; congruence). exact IH.
Qed.

Lemma parts_app (key : string) (a b : list (string * FormValue)) :
  parts key (a ++ b) = parts key a ++ parts key b.
Proof. unfold parts. by rewrite filter_app, fmap_app. Qed.

(** The form a click posts, whatever is staged: the trimmed case name and
    case id, one [files] part per staged file in the order of staging, and
    one [file_configs] part whose object has, for every name but
    [__proto__], exactly the role and unit of the file staged under that
    name, and no entry for any other name. It holds of every manager whose
    [filesMap] has distinct keys, as a [Map] has, and so on every page
    however it was used. *)
Theorem posted_form_content (m m' : Manager) (n i : string)
  (url : string) (body : list (string * FormValue)) :
  NoDup (keys (filesMap m)) ->
  uploadAll n i m = (m', Post url body) ->
  url = "/api/upload"
  /\ parts "case_name" body = [Text (trim n)]
  /\ parts "case_id" body = [Text (trim i)]
  /\ parts "files" body = (fun kv => Blob (file kv.2)) <$> filesMap m
  /\ length body = (length (filesMap m) + 3)%nat
  /\ exists configs,
       parts "file_configs" body = [Json configs]
       /\ forall k, configs !! k
                    = if String.eqb k "__proto__" then None
                      else (fun c => mkFileConfig (type c) (unit c)) <$> map_get (filesMap m) k.
Proof.
  intros Hnd. unfold uploadAll.
  destruct (_ || _); [discriminate|]. destruct (is_empty _); [discriminate|].
  destruct (btn m); [|discriminate]. intros [= _ <- <-]. split; [done|].
  unfold form_data.
  split; [by rewrite !parts_app, (parts_other "case_name")|].
  split; [by rewrite !parts_app, (parts_other "case_id")|].
  split; [rewrite !parts_app, parts_files; by rewrite app_nil_r|].
  split; [rewrite !length_app, length_map; simpl; lia|].
  exists (build_configs (filesMap m)).
  split; [by rewrite !parts_app, (parts_other "file_configs")|].
  intros k. by apply build_configs_entries.
Qed.

Lemma stage_keys acc f :
  keys (stage acc f).1
  = if bool_decide (name f ∈ keys acc.1) then keys acc.1 else keys acc.1 ++ [name f].
Proof. unfold stage. simpl. apply keys_map_set. Qed.

Lemma fold_stage_keys (fileList : list File) acc :
  let ks := keys acc.1 in
  let ks' := keys (fold_left stage fileList acc).1 in
  ks `prefix_of` ks'
  /\ (forall k, k ∈ ks' <-> k ∈ ks \/ k ∈ name <$> fileList)
  /\ (length ks' <= length ks + length fileList)%nat.
Proof.
  revert acc. induction fileList as [|f r IH]; intros acc; simpl.
  - split; [done|]. split; [|lia]. intros k. rewrite elem_of_nil. tauto.
  - destruct (IH (stage acc f)) as (Hp & Hin & Hlen).
    rewrite stage_keys in Hp, Hin, Hlen. split; [|split].
    + case_bool_decide; [done|]. etrans; [|exact Hp]. by apply prefix_app_r.
    + intros k. rewrite Hin, elem_of_cons. case_bool_decide as Hk.
      * split; [tauto|]. intros [?|[->|?]]; auto.
      * rewrite elem_of_app, list_elem_of_singleton. tauto.
    + case_bool_decide; [lia|]. rewrite length_app in Hlen. simpl in Hlen. lia.
Qed.

(** Staging files keeps one entry per name: the files already staged keep
    their place, every new name is added once after them, and a file whose
    name is already staged takes the place of the old one, with the
    default role and unit again, instead of being added. *)
Theorem addFiles_one_entry_per_name (fileList : list File) (m : Manager) :
  let ks := keys (filesMap m) in
  let ks' := keys (filesMap (addFiles fileList m)) in
  ks `prefix_of` ks'
  /\ (forall k, k ∈ ks' <-> k ∈ ks \/ k ∈ name <$> fileList)
  /\ (length ks' <= length ks + length fileList)%nat
  /\ (NoDup ks -> NoDup ks')
  /\ (forall f, f ∈ fileList ->
                exists f', f' ∈ fileList /\ name f' = name f
                           /\ map_get (filesMap (addFiles fileList m)) (name f)
                              = Some (mkConfig f' "排查人员" (default_unit f'))).
Proof.
  cbv zeta. unfold addFiles. simpl.
  set (acc := (filesMap m, if is_empty (filesMap m) then Some [] else staging m)).
  destruct (fold_stage_keys fileList acc) as (Hp & Hin & Hlen).
  split; [exact Hp|]. split; [exact Hin|]. split; [exact Hlen|]. split.
  - intros Hnd.
    assert (Hk : forall fs a, NoDup (keys a.1) -> NoDup (keys (fold_left stage fs a).1)).
    { induction fs as [|f r IH]; intros a Ha; simpl; [done|].
      apply IH. unfold stage. simpl. by apply keys_map_set_NoDup. }
    by apply Hk.
  - intros f Hf. destruct (fold_stage_get fileList acc f Hf) as (f' & Hf' & Hn & Hg).
    by exists f'.
Qed.

End UploadMore.

Lemma updateConfig_changes_one_field_witness :
  let m := Upload.addFiles [Upload.mkFile "a.xlsx" 10; Upload.mkFile "b.csv" 20]
             (Upload.init [] None None) in
  let m' := Upload.updateConfig "a.xlsx" Upload.KeyUnit "fen" m in
  Upload.map_get (Upload.filesMap m') "a.xlsx"
  = Some (Upload.mkConfig (Upload.mkFile "a.xlsx" 10) "排查人员" "fen")
  /\ Upload.map_get (Upload.filesMap m') "b.csv" = Upload.map_get (Upload.filesMap m) "b.csv"
  /\ keys (Upload.filesMap m') = ["a.xlsx"; "b.csv"]
  /\ Upload.updateConfig "c.txt" Upload.KeyUnit "fen" m = m.
Proof.
  intros m m'.
  destruct (updateConfig_changes_one_field "a.xlsx" Upload.KeyUnit "fen" m)
    as (H1 & _ & H3 & _).
  destruct (updateConfig_changes_one_field "c.txt" Upload.KeyUnit "fen" m)
    as (_ & _ & _ & _ & _ & _ & H7).
  split; [exact (H1 "a.xlsx")|]. split; [exact (H1 "b.csv")|]. split; [exact H3|].
  apply H7. reflexivity.
Defined.

Lemma remove_forgets_one_file_witness :
  let b := Upload.mkButton false "开始处理并入库" in
  let m := Upload.addFiles [Upload.mkFile "a.xlsx" 10; Upload.mkFile "b.csv" 20]
             (Upload.init [] (Some b) None) in
  Upload.staging (Upload.remove "a.xlsx" m)
  = Some [Upload.Row "b.csv" (Upload.mkConfig (Upload.mkFile "b.csv" 20) "排查人员" "yuan")]
  /\ Upload.btn (Upload.remove "b.csv" (Upload.remove "a.xlsx" m))
     = Some (Upload.mkButton true "开始处理并入库")
  /\ Upload.staging (Upload.remove "b.csv" (Upload.remove "a.xlsx" m))
     = Some [Upload.Hint "请点击上方按钮添加文件"].
Proof.
  intros b m.
  destruct (remove_forgets_one_file "a.xlsx" m) as (_ & _ & _ & _ & H5 & _).
  destruct (remove_forgets_one_file "b.csv" (Upload.remove "a.xlsx" m))
    as (_ & _ & H3 & H4 & _).
  split.
  - destruct H5 as [_ H5]; [discriminate|].
    apply (H5 _ eq_refl). repeat constructor.
  - split; [exact (H3 _ eq_refl)|]. apply H4. reflexivity.
Defined.

Lemma upload_attempt_settles_witness :
  let m := Upload.addFiles [Upload.mkFile "a.xlsx" 10]
             (Upload.init [] (Some (Upload.mkButton true "开始处理并入库")) None) in
  let r := Upload.uploadAll "案件A" " CASE-001 " m in
  let after := Upload.uploadSettled (Upload.Failed "Failed to fetch") r.1 in
  Upload.btn r.1 = Some (Upload.mkButton true "正在处理...")
  /\ Upload.btn after.1 = Some (Upload.mkButton false "开始处理并入库")
  /\ (Upload.uploadAll "案件A" " CASE-001 " after.1).2 = r.2.
Proof.
  intros m r after.
  destruct (upload_attempt_settles "案件A" " CASE-001 " m r.1 "/api/upload"
              (Upload.form_data "案件A" "CASE-001" (Upload.filesMap m)) eq_refl)
    as (H1 & _ & H3).
  destruct (H3 "Failed to fetch") as (Hb & _ & _ & _ & _ & Hagain).
  split; [exact H1|]. split; [exact Hb|exact Hagain].
Defined.

Lemma posted_form_content_witness :
  let a := Upload.mkFile "a.xlsx" 10 in
  let p := Upload.mkFile "__proto__" 3 in
  let events := [Upload.SelectFiles [a; p]; Upload.ChooseType "a.xlsx" Upload.Thief] in
  exists m,
    Upload.run events (Upload.init [] (Some (Upload.mkButton true "开始处理并入库")) None) = Some m
    /\ let body := Upload.form_data "案件A" "CASE-001" (Upload.filesMap m) in
       parts "case_id" body = [Upload.Text "CASE-001"]
       /\ parts "files" body = [Upload.Blob a; Upload.Blob p]
       /\ exists configs,
            parts "file_configs" body = [Upload.Json configs]
            /\ configs !! "a.xlsx" = Some (Upload.mkFileConfig "盗窃人员" "yuan")
            /\ configs !! "__proto__" = None
            /\ configs !! "b.csv" = None.
Proof.
  intros a p events. eexists. split; [reflexivity|]. intros body.
  match goal with
  | body := Upload.form_data _ _ (Upload.filesMap ?m) |- _ =>
      assert (Hnd : NoDup (keys (Upload.filesMap m)))
        by (apply (bool_decide_unpack _); vm_compute; exact I);
      destruct (posted_form_content m (Upload.uploadAll "案件A" " CASE-001 " m).1
                  "案件A" " CASE-001 " "/api/upload" body Hnd eq_refl)
        as (_ & _ & Hid & Hfiles & _ & configs & Hc & Hk)
  end.
  split; [exact Hid|]. split; [exact Hfiles|]. exists configs.
  split; [exact Hc|]. split; [exact (Hk "a.xlsx")|].
  split; [exact (Hk "__proto__")|exact (Hk "b.csv")].
Defined.

Lemma addFiles_one_entry_per_name_witness :
  let fileList := [Upload.mkFile "a.txt" 1; Upload.mkFile "b.csv" 5; Upload.mkFile "a.txt" 2] in
  let m := Upload.addFiles [Upload.mkFile "a.txt" 7] (Upload.init [] None None) in
  NoDup (keys (Upload.filesMap (Upload.addFiles fileList m)))
  /\ (length (keys (Upload.filesMap (Upload.addFiles fileList m))) <= 1 + 3)%nat
  /\ exists f', f' ∈ fileList /\ Upload.name f' = "a.txt"
                /\ Upload.map_get (Upload.filesMap (Upload.addFiles fileList m)) "a.txt"
                   = Some (Upload.mkConfig f' "排查人员" (Upload.default_unit f')).
Proof.
  intros fileList m.
  destruct (addFiles_one_entry_per_name fileList m) as (_ & _ & Hlen & Hnd & Hget).
  split; [apply Hnd; apply NoDup_singleton|]. split; [exact Hlen|].
  apply (Hget (Upload.mkFile "a.txt" 1)). apply list_elem_of_here.
Defined.

Section StagingSync.
Import Js Upload.

Lemma row_names_app (a b : list StagingChild) :
  row_names (a ++ b) = row_names a ++ row_names b.
Proof.
  induction a as [|[t|f c] a IH]; simpl; [done|done|]. by rewrite IH.
Qed.

Lemma without_row_absent (k : string) (children : list StagingChild) :
  k ∉ row_names children -> without_row k children = children.
Proof.
  induction children as [|[t|f c] r IH]; simpl; intros H; [done|by rewrite IH|].
  apply not_elem_of_cons in H as [Hne Hr].
  assert (E : String.eqb f k = false) by (apply String.eqb_neq; congruence).
  by rewrite E, IH.
Qed.

Lemma without_row_present (k : string) (children : list StagingChild) :
  k ∈ row_names children -> row_names children ≡ₚ k :: row_names (without_row k children).
Proof.
  induction children as [|[t|f c] r IH]; simpl; intros H.
  - by apply elem_of_nil in H.
  - by apply IH.
  - destruct (String.eqb f k) eqn:E.
    + apply String.eqb_eq in E as ->. done.
    + apply String.eqb_neq in E. apply elem_of_cons in H as [->|H]; [done|].
      simpl. rewrite (IH H) at 1. apply Permutation_swap.
Qed.

Lemma without_row_rows_only (k : string) (children : list StagingChild) :
  rows_only children -> rows_only (without_row k children).
Proof.
  unfold rows_only. induction children as [|[t|f c] r IH]; simpl; intros H t'; [done| |].
  - exfalso. apply (H t). apply list_elem_of_here.
  - assert (Hr : forall t, Hint t ∉ r)
      by (intros t0 Hin; apply (H t0); by apply list_elem_of_further).
    destruct (String.eqb f k); [apply Hr|].
    apply not_elem_of_cons. split; [done|by apply IH].
Qed.

Lemma without_row_clean (k : string) (children : list StagingChild) :
  clean children -> clean (without_row k children).
Proof.
  unfold clean. induction children as [|[t|f c] r IH]; simpl; intros H; [done|by apply IH|].
  apply Forall_cons in H as [Hf Hr]. destruct (String.eqb f k); [done|].
  simpl. constructor; [done|by apply IH].
Qed.

Lemma stage_in_sync files children f :
  in_sync files children -> inert (name f) = true ->
  exists children', (stage (files, Some children) f).2 = Some children'
                    /\ in_sync (stage (files, Some children) f).1 children'.
Proof.
  intros (Hnd & Hrows & Hclean & Hperm) Hf. unfold stage, renderRow. simpl.
  rewrite remove_row_clean by done. simpl. eexists. split; [reflexivity|].
  split; [by apply keys_map_set_NoDup|]. split; [|split].
  - intros t Hin. apply elem_of_app in Hin as [Hin|Hin%list_elem_of_singleton]; [|done].
    by apply (without_row_rows_only (name f) children Hrows t).
  - unfold clean. rewrite row_names_app. apply Forall_app. split.
    + by apply without_row_clean.
    + simpl. by constructor.
  - rewrite row_names_app, keys_map_set. simpl. case_bool_decide as Hk.
    + rewrite <- Hperm in Hk. rewrite <- Hperm. rewrite (without_row_present _ _ Hk).
      by rewrite Permutation_app_comm.
    + rewrite <- Hperm in Hk. rewrite without_row_absent by done. by rewrite Hperm.
Qed.

Lemma fold_stage_in_sync fileList files children :
  in_sync files children -> forallb (fun f => inert (name f)) fileList = true ->
  exists children', (fold_left stage fileList (files, Some children)).2 = Some children'
                    /\ in_sync (fold_left stage fileList (files, Some children)).1 children'.
Proof.
  revert files children. induction fileList as [|f r IH]; intros files children H Hall; simpl.
  - by exists children.
  - simpl in Hall. apply andb_true_iff in Hall as [Hf Hr].
    destruct (stage_in_sync files children f H Hf) as (c1 & E1 & H1).
    destruct (stage (files, Some children) f) as [files1 staging1] eqn:E.
    simpl in E1, H1. subst staging1. by apply IH.
Qed.

Lemma in_sync_nil : in_sync [] [].
Proof.
  split; [constructor|]. split; [intros t H; by apply elem_of_nil in H|].
  split; [constructor|done].
Qed.

Lemma filter_ne_absent (k : string) (l : list string) :
  k ∉ l -> filter (fun x => x <> k) l = l.
Proof.
  induction l as [|y l IH]; [done|]. intros [Hne Hl]%not_elem_of_cons.
  rewrite filter_cons, decide_True by congruence. f_equal. by apply IH.
Qed.

Lemma filter_ne_present (k : string) (l : list string) :
  NoDup l -> k ∈ l -> l ≡ₚ k :: filter (fun x => x <> k) l.
Proof.
  induction l as [|x l IH]; intros Hnd Hk; [by apply elem_of_nil in Hk|].
  apply NoDup_cons in Hnd as [Hx Hl]. rewrite filter_cons.
  apply elem_of_cons in Hk as [->|Hk].
  - rewrite decide_False by tauto. by rewrite filter_ne_absent.
  - assert (x <> k) by (intros ->; done). rewrite decide_True by done.
    rewrite (IH Hl Hk) at 1. apply Permutation_swap.
Qed.

Lemma remove_in_sync k files children :
  in_sync files children -> in_sync (map_delete files k) (without_row k children).
Proof.
  intros (Hnd & Hrows & Hclean & Hperm). split; [by apply keys_map_delete_NoDup|].
  split; [by apply without_row_rows_only|]. split; [by apply without_row_clean|].
  rewrite keys_map_delete. destruct (decide (k ∈ keys files)) as [Hk|Hk].
  - assert (Hk' : k ∈ row_names children) by (by rewrite Hperm).
    apply (Permutation_cons_inv (a := k)).
    by rewrite <- (without_row_present _ _ Hk'), Hperm, <- filter_ne_present.
  - assert (Hk' : k ∉ row_names children) by (by rewrite Hperm).
    by rewrite without_row_absent, filter_ne_absent.
Qed.

Lemma updateConfig_synced filename key val m :
  synced m -> synced (updateConfig filename key val m).
Proof.
  intros H. unfold updateConfig.
  destruct (map_get (filesMap m) filename) as [config|] eqn:E; [|done].
  destruct H as [H|(children & Hs & Hnd & Hrows & Hclean & Hperm)]; [by rewrite H in E|].
  right. exists children. cbn [filesMap staging]. split; [done|].
  split; [by apply keys_map_set_NoDup|]. split; [done|]. split; [done|].
  rewrite keys_map_set, bool_decide_eq_true_2; [done|]. by eapply map_get_key.
Qed.

Lemma step_synced m e m' : step m e = Some m' -> synced m -> synced m'.
Proof.
  intros Hstep H. destruct e as [fileList|filename c|filename c|filename|n i|r];
    simpl in Hstep.
  - destruct (forallb _ fileList) eqn:Hall; [|done]. injection Hstep as <-.
    right. unfold addFiles. cbn [filesMap staging].
    assert (Hstart : exists children,
               (if is_empty (filesMap m) then Some [] else staging m) = Some children
               /\ in_sync (filesMap m) children).
    { destruct H as [H|(children & Hs & Hsync)].
      - rewrite H. exists []. split; [done|apply in_sync_nil].
      - destruct (is_empty (filesMap m)) eqn:E; [|by exists children].
        rewrite is_empty_nil in E. apply bool_decide_eq_true in E. rewrite E.
        exists []. split; [done|apply in_sync_nil]. }
    destruct Hstart as (children & -> & Hsync).
    by apply fold_stage_in_sync.
  - destruct (_ && _); [|done]. injection Hstep as <-. by apply updateConfig_synced.
  - destruct (_ && _); [|done]. injection Hstep as <-. by apply updateConfig_synced.
  - destruct (_ && _); [|done]. injection Hstep as <-.
    unfold remove. destruct (map_delete (filesMap m) filename) eqn:E; [by left|].
    right. cbn [filesMap staging is_empty length Nat.eqb]. rewrite <- E.
    destruct H as [H|(children & Hs & Hsync)]; [by rewrite H in E|].
    exists (without_row filename children). split.
    + rewrite Hs. simpl. apply remove_row_clean. by destruct Hsync as (_ & _ & ? & _).
    + by apply remove_in_sync.
  - injection Hstep as <-. unfold uploadAll. repeat case_match; done.
  - injection Hstep as <-. by destruct r.
Qed.

Lemma run_synced events m m' : run events m = Some m' -> synced m -> synced m'.
Proof.
  revert m. induction events as [|e r IH]; intros m Hrun H; simpl in Hrun.
  - by injection Hrun as <-.
  - destruct (step m e) as [m1|] eqn:E; [|done]. simpl in Hrun.
    eapply IH; [exact Hrun|]. by eapply step_synced.
Qed.

(** While files are staged on a page that is followed (every name put into
    a row is [inert]), the staging area lists exactly them: it holds rows
    only, one for each staged file and no other, however files were added,
    configured and removed. *)
Theorem staging_lists_staged_files (staging0 : list StagingChild) (btn0 : option Button)
  (statusEl0 : option StatusMsg) (events : list Event) (m : Manager) :
  run events (init staging0 btn0 statusEl0) = Some m ->
  filesMap m <> [] ->
  exists children,
    staging m = Some children
    /\ rows_only children
    /\ NoDup (row_names children)
    /\ row_names children ≡ₚ keys (filesMap m)
    /\ length (row_names children) = length (filesMap m).
Proof.
  intros Hrun Hne.
  assert (H : synced m) by (eapply run_synced; [exact Hrun|by left]).
  destruct H as [H|(children & Hs & Hnd & Hrows & Hclean & Hperm)]; [done|].
  exists children. split; [done|]. split; [done|]. split; [by rewrite Hperm|].
  split; [done|]. rewrite Hperm. unfold keys. by rewrite length_fmap.
Qed.

End StagingSync.

Lemma staging_lists_staged_files_witness :
  let events := [Upload.SelectFiles [Upload.mkFile "a.xlsx" 10; Upload.mkFile "b.csv" 20];
                 Upload.ClickRemove "a.xlsx";
                 Upload.SelectFiles [Upload.mkFile "a.xlsx" 11];
                 Upload.ChooseUnit "b.csv" Upload.Fen] in
  exists m children,
    Upload.run events (Upload.init [Upload.Hint "请点击上方按钮添加文件"] None None) = Some m
    /\ Upload.staging m = Some children
    /\ rows_only children
    /\ Upload.row_names children ≡ₚ keys (Upload.filesMap m).
Proof.
  intros events.
  destruct (staging_lists_staged_files [Upload.Hint "请点击上方按钮添加文件"] None None events _
              eq_refl) as (children & Hs & H1 & _ & H3 & _).
  { vm_compute. discriminate. }
  eexists _, children. split; [reflexivity|]. split; [exact Hs|]. split; [exact H1|exact H3].
Defined.

(** ** Requests read back *)

Section DecodeFacts.
Import Js.

Lemma encode_byte_cases (n : N) :
  (n < 256)%N ->
  (uri_unreserved n = true /\ encode_byte n = [n] /\ n <> 37%N /\ n <> 43%N)
  \/ (exists h lo, encode_byte n = [37%N; h; lo]
                   /\ unhex h = Some (n / 16)%N /\ unhex lo = Some (n mod 16)%N).
Proof.
  intros Hn.
  set (same := fun (o : option N) (x : N) =>
                 match o with Some a => (a =? x)%N | None => false end).
  assert (H : (if uri_unreserved n then negb (n =? 37)%N && negb (n =? 43)%N
               else same (unhex (hex_digit (n / 16))) (n / 16)%N
                    && same (unhex (hex_digit (n mod 16))) (n mod 16)%N) = true).
  { revert n Hn. apply for_all_bytes. vm_compute. reflexivity. }
  unfold encode_byte. destruct (uri_unreserved n).
  - left. split; [done|]. split; [done|].
    apply andb_true_iff in H as [H1%negb_true_iff H2%negb_true_iff].
    split; by apply N.eqb_neq.
  - right. apply andb_true_iff in H as [H1 H2]. unfold same in H1, H2.
    destruct (unhex (hex_digit (n / 16))) as [a|] eqn:Ea; [|done].
    destruct (unhex (hex_digit (n mod 16))) as [b|] eqn:Eb; [|done].
    apply N.eqb_eq in H1 as ->. apply N.eqb_eq in H2 as ->. by eexists _, _.
Qed.

Lemma percent_decode_encode_byte (n : N) (rest : list N) :
  (n < 256)%N -> percent_decode (encode_byte n ++ rest) = n :: percent_decode rest.
Proof.
  intros Hn. destruct (encode_byte_cases n Hn) as [(_ & -> & Hne & Hplus)|(h & lo & -> & Hh & Hlo)].
  - cbn [app percent_decode]. apply N.eqb_neq in Hne as ->. by apply N.eqb_neq in Hplus as ->.
  - cbn [app percent_decode]. change (37 =? 43)%N with false. cbv iota.
    rewrite N.eqb_refl, Hh, Hlo. f_equal.
    symmetry. by apply N.div_mod.
Qed.

Lemma percent_decode_encoded (bs : list N) :
  Forall (fun n => (n < 256)%N) bs -> percent_decode (concat (map encode_byte bs)) = bs.
Proof.
  induction 1 as [|n bs Hn Hbs IH]; [done|].
  simpl. rewrite percent_decode_encode_byte by done. by rewrite IH.
Qed.

(** Decoding what [encodeURIComponent] wrote gives the string back. *)
Lemma decode_encodeURIComponent (s : string) :
  of_bytes (percent_decode (bytes (encodeURIComponent s))) = s.
Proof.
  destruct (encoded_bytes s) as [-> _].
  rewrite percent_decode_encoded by apply bytes_bounded. apply of_bytes_bytes.
Qed.

Lemma plain_field (p : list N * list N) :
  plain p -> Forall (fun x => x <> 38%N) (p.1 ++ 61%N :: p.2).
Proof. intros (H1 & _ & H2). apply Forall_app. split; [done|]. by constructor. Qed.

Lemma lookup_field_cons key (p : list N * list N) more :
  plain p ->
  lookup_field key ((p.1 ++ 61%N :: p.2) :: more)
  = if bool_decide (p.1 = key) then Some p.2 else lookup_field key more.
Proof.
  intros (_ & H & _). cbn [lookup_field]. by rewrite before_skip, after_skip.
Qed.

(** Reading a written query gives each parameter its value. *)
Lemma lookup_written_query key (ps : list (list N * list N)) :
  ps <> [] -> Forall plain ps ->
  lookup_field key (fields 38 (write_query ps) []) = assoc key ps.
Proof.
  intros Hne Hall. induction Hall as [|p r Hp Hr IH]; [done|]. clear Hne.
  cbn [write_query assoc]. destruct r as [|p' r].
  - rewrite fields_last by (by apply plain_field).
    rewrite lookup_field_cons by done. by destruct (bool_decide _).
  - replace (p.1 ++ 61%N :: p.2 ++ 38%N :: write_query (p' :: r))
      with ((p.1 ++ 61%N :: p.2) ++ 38%N :: write_query (p' :: r))
      by (by rewrite <- app_assoc).
    rewrite fields_skip by (by apply plain_field). rewrite app_nil_r. cbn [fields].
    rewrite N.eqb_refl, rev_involutive, lookup_field_cons by done.
    by rewrite IH.
Qed.

(** The parameters of a URL written as [path?k1=v1&...]. *)
Lemma query_param_written (url key : string) (path : list N) (ps : list (list N * list N)) :
  bytes url = path ++ 63%N :: write_query ps ->
  Forall (fun x => x <> 63%N) path -> ps <> [] -> Forall plain ps ->
  query_param url key = of_bytes <$> assoc (bytes key) ps.
Proof.
  intros Hurl Hpath Hne Hall. unfold query_param.
  rewrite Hurl, after_skip by done. by rewrite lookup_written_query.
Qed.

Lemma plain_encoded (k : string) (v : string) :
  forallb (fun x => negb (x =? 38)%N && negb (x =? 61)%N) (bytes k) = true ->
  plain (bytes k, bytes (encodeURIComponent v)).
Proof.
  intros H. rewrite forallb_forall in H. split; [|split]; simpl.
  - apply Forall_forall. intros x Hx%list_elem_of_In. apply H in Hx.
    apply andb_true_iff in Hx as [Hx%negb_true_iff _]. by apply N.eqb_neq.
  - apply Forall_forall. intros x Hx%list_elem_of_In. apply H in Hx.
    apply andb_true_iff in Hx as [_ Hx%negb_true_iff]. by apply N.eqb_neq.
  - destruct (encoded_bytes v) as [_ Hs]. by apply (uri_safe_no_byte 38).
Qed.

Lemma bytes_inj (s t : string) : bytes s = bytes t -> s = t.
Proof. intros H. by rewrite <- (of_bytes_bytes s), <- (of_bytes_bytes t), H. Qed.

End DecodeFacts.

Section UrlFacts.
Import Js.

Lemma plain_minutes (minutes : JsNumber) :
  plain (bytes "minutes", bytes (numberToString minutes)).
Proof.
  split; [by apply no_byte_Forall|]. split; [by apply no_byte_Forall|].
  apply numberToString_no_amp.
Qed.

Lemma assoc_miss3 (key : string) k1 v1 k2 v2 k3 v3 :
  key <> k1 -> key <> k2 -> key <> k3 ->
  assoc (bytes key) [(bytes k1, v1); (bytes k2, v2); (bytes k3, v3)] = None.
Proof.
  intros H1 H2 H3. cbn [assoc fst snd].
  rewrite !bool_decide_eq_false_2; [done|..]; intros E%bytes_inj; congruence.
Qed.

Ltac written :=
  rewrite ?bytes_app;
  repeat match goal with
         | |- context [bytes (encodeURIComponent ?s)] =>
             let E := fresh "E" in set (E := bytes (encodeURIComponent s)); clearbody E
         | |- context [bytes (numberToString ?s)] =>
             let E := fresh "E" in set (E := bytes (numberToString s)); clearbody E
         end;
  reflexivity.

Lemma percent_decode_plain (l : list N) :
  Forall (fun b => b <> 37%N /\ b <> 43%N) l -> percent_decode l = l.
Proof.
  induction 1 as [|c l [H37 H43] Hl IH]; [done|]. cbn [percent_decode].
  apply N.eqb_neq in H37 as ->. apply N.eqb_neq in H43 as ->. by rewrite IH.
Qed.

(** The text of an exact number holds no [%] and no [+]. *)
Lemma numberToString_exact_plain (x : JsNumber) :
  exact x -> Forall (fun b => b <> 37%N /\ b <> 43%N) (bytes (numberToString x)).
Proof.
  destruct x as [|z|neg]; [intros _|intros Hx|done].
  - repeat constructor; done.
  - rewrite numberToString_exact by done. cbv zeta.
    set (ds := nat_digits _ _ _).
    assert (Hds : Forall (fun d => (48 <= d <= 57)%N) ds)
      by (by apply nat_digits_are_digits).
    assert (Hb : bytes (of_bytes ds) = ds).
    { apply bytes_of_bytes. eapply Forall_impl; [exact Hds|]. cbv beta. lia. }
    assert (Hno : Forall (fun b => b <> 37%N /\ b <> 43%N) ds).
    { eapply Forall_impl; [exact Hds|]. cbv beta. lia. }
    destruct (z <? 0)%Z; [|by rewrite Hb].
    rewrite bytes_app, Hb. apply Forall_app. split; [|done]. repeat constructor; done.
Qed.

(** Every request of the multi-bill dashboard is read back as it was
    meant: its [case_id] parameter decodes to the case id whatever
    characters the id holds, the hidden-accomplice request has the text of
    the window as its [minutes] parameter (which a receiver that decodes
    reads as that text when the window is exact), and no request has any
    other parameter. *)
Theorem multi_requests_read_back (id : string) (minutes : JsNumber) :
  decoded_param (Multi.interaction_url id) "case_id" = Some id
  /\ decoded_param (Multi.stolen_url id) "case_id" = Some id
  /\ decoded_param (Multi.hidden_url id minutes) "case_id" = Some id
  /\ query_param (Multi.hidden_url id minutes) "minutes" = Some (numberToString minutes)
  /\ (exact minutes ->
      decoded_param (Multi.hidden_url id minutes) "minutes" = Some (numberToString minutes))
  /\ (forall key, key <> "case_id" ->
                  query_param (Multi.interaction_url id) key = None
                  /\ query_param (Multi.stolen_url id) key = None
                  /\ (key <> "minutes" -> query_param (Multi.hidden_url id minutes) key = None)).
Proof.
  assert (Hid : plain (bytes "case_id", bytes (encodeURIComponent id)))
    by (by apply plain_encoded).
  pose proof (plain_minutes minutes) as Hmin.
  assert (Hi : forall key, query_param (Multi.interaction_url id) key
            = of_bytes <$> assoc (bytes key) [(bytes "case_id", bytes (encodeURIComponent id))]).
  { intros key. apply (query_param_written _ _ (bytes "/api/analysis/multi/interaction"));
      [unfold Multi.interaction_url; written|by apply no_byte_Forall|done|repeat (apply List.Forall_cons; [assumption|]); apply List.Forall_nil]. }
  assert (Hs : forall key, query_param (Multi.stolen_url id) key
            = of_bytes <$> assoc (bytes key) [(bytes "case_id", bytes (encodeURIComponent id))]).
  { intros key. apply (query_param_written _ _ (bytes "/api/analysis/multi/stolen_known"));
      [unfold Multi.stolen_url; written|by apply no_byte_Forall|done|repeat (apply List.Forall_cons; [assumption|]); apply List.Forall_nil]. }
  assert (Hh : forall key, query_param (Multi.hidden_url id minutes) key
            = of_bytes <$> assoc (bytes key) [(bytes "case_id", bytes (encodeURIComponent id));
                                              (bytes "minutes", bytes (numberToString minutes))]).
  { intros key. apply (query_param_written _ _ (bytes "/api/analysis/multi/hidden"));
      [unfold Multi.hidden_url; written|by apply no_byte_Forall|done|repeat (apply List.Forall_cons; [assumption|]); apply List.Forall_nil]. }
  unfold decoded_param. rewrite !Hi, !Hs, !Hh. cbn [assoc fst snd].
  rewrite !bool_decide_eq_true_2 by done. rewrite bool_decide_eq_false_2 by done.
  rewrite bool_decide_eq_true_2 by done. cbn [fmap option_fmap option_map].
  rewrite !of_bytes_bytes, decode_encodeURIComponent.
  split; [done|]. split; [done|]. split; [done|]. split; [done|].
  split.
  { intros Hx. by rewrite (percent_decode_plain _ (numberToString_exact_plain _ Hx)),
                 of_bytes_bytes. }
  intros key Hk. rewrite Hi, Hs, Hh. cbn [assoc fst snd].
  assert (Hb : bytes "case_id" <> bytes key) by (intros E%bytes_inj; congruence).
  rewrite !bool_decide_eq_false_2 by done. split; [done|]. split; [done|].
  intros Hm. rewrite bool_decide_eq_false_2; [done|]. intros E%bytes_inj. congruence.
Qed.

(** The same for the single-bill dashboard: the case id, the person filter
    and the statistics mode are each read back, decoded, as they were given,
    so no character of one can pass for another parameter. *)
Theorem single_requests_read_back (id person filter : string) :
  decoded_param (Single.trend_url id person) "case_id" = Some id
  /\ decoded_param (Single.trend_url id person) "person" = Some person
  /\ decoded_param (Single.stats_url id person filter) "case_id" = Some id
  /\ decoded_param (Single.stats_url id person filter) "person" = Some person
  /\ decoded_param (Single.stats_url id person filter) "filter" = Some filter
  /\ decoded_param (Single.keywords_url id) "case_id" = Some id
  /\ (forall key, key <> "case_id" -> key <> "person" -> key <> "filter" ->
                  query_param (Single.trend_url id person) key = None
                  /\ query_param (Single.stats_url id person filter) key = None
                  /\ query_param (Single.keywords_url id) key = None).
Proof.
  assert (Hid : plain (bytes "case_id", bytes (encodeURIComponent id)))
    by (by apply plain_encoded).
  assert (Hp : plain (bytes "person", bytes (encodeURIComponent person)))
    by (by apply plain_encoded).
  assert (Hf : plain (bytes "filter", bytes (encodeURIComponent filter)))
    by (by apply plain_encoded).
  assert (Ht : forall key, query_param (Single.trend_url id person) key
            = of_bytes <$> assoc (bytes key) [(bytes "case_id", bytes (encodeURIComponent id));
                                              (bytes "person", bytes (encodeURIComponent person))]).
  { intros key. apply (query_param_written _ _ (bytes "/api/analysis/single/trend"));
      [unfold Single.trend_url; written|by apply no_byte_Forall|done|repeat (apply List.Forall_cons; [assumption|]); apply List.Forall_nil]. }
  assert (Hs : forall key, query_param (Single.stats_url id person filter) key
            = of_bytes <$> assoc (bytes key) [(bytes "case_id", bytes (encodeURIComponent id));
                                              (bytes "person", bytes (encodeURIComponent person));
                                              (bytes "filter", bytes (encodeURIComponent filter))]).
  { intros key. apply (query_param_written _ _ (bytes "/api/analysis/single/stats"));
      [unfold Single.stats_url; written|by apply no_byte_Forall|done|repeat (apply List.Forall_cons; [assumption|]); apply List.Forall_nil]. }
  assert (Hk : forall key, query_param (Single.keywords_url id) key
            = of_bytes <$> assoc (bytes key) [(bytes "case_id", bytes (encodeURIComponent id))]).
  { intros key. apply (query_param_written _ _ (bytes "/api/analysis/single/keywords"));
      [unfold Single.keywords_url; written|by apply no_byte_Forall|done|repeat (apply List.Forall_cons; [assumption|]); apply List.Forall_nil]. }
  unfold decoded_param. rewrite !Ht, !Hs, !Hk. cbn [assoc fst snd].
  repeat (first [rewrite bool_decide_eq_true_2 by done | rewrite bool_decide_eq_false_2 by done]).
  cbn [fmap option_fmap option_map]. rewrite !of_bytes_bytes, !decode_encodeURIComponent.
  do 6 (split; [done|]).
  intros key H1 H2 H3. rewrite Ht, Hs, Hk. cbn [assoc fst snd].
  assert (bytes "case_id" <> bytes key) by (intros E%bytes_inj; congruence).
  assert (bytes "person" <> bytes key) by (intros E%bytes_inj; congruence).
  assert (bytes "filter" <> bytes key) by (intros E%bytes_inj; congruence).
  by rewrite !bool_decide_eq_false_2.
Qed.

End UrlFacts.

Lemma multi_requests_read_back_witness :
  decoded_param (Multi.hidden_url "A&minutes=5 #1" (Js.Num 30)) "case_id" = Some "A&minutes=5 #1"
  /\ decoded_param (Multi.hidden_url "A&minutes=5 #1" (Js.Num 30)) "minutes" = Some "30"
  /\ query_param (Multi.interaction_url "A&minutes=5 #1") "minutes" = None.
Proof.
  destruct (multi_requests_read_back "A&minutes=5 #1" (Js.Num 30))
    as (_ & _ & H3 & _ & H4 & H5).
  split; [exact H3|]. split; [apply H4; vm_compute; discriminate|].
  destruct (H5 "minutes") as (H & _); [|exact H].
  apply String.eqb_neq. reflexivity.
Defined.

Lemma single_requests_read_back_witness :
  decoded_param (Single.stats_url "CASE-001" "张三&filter=all" "in") "person" = Some "张三&filter=all"
  /\ decoded_param (Single.stats_url "CASE-001" "张三&filter=all" "in") "filter" = Some "in"
  /\ query_param (Single.stats_url "CASE-001" "张三&filter=all" "in") "minutes" = None.
Proof.
  destruct (single_requests_read_back "CASE-001" "张三&filter=all" "in")
    as (_ & _ & _ & H4 & H5 & _ & H7).
  split; [exact H4|]. split; [exact H5|].
  destruct (H7 "minutes") as (_ & H & _); [apply String.eqb_neq; reflexivity..|exact H].
Defined.

(** ** The window field *)

Section EchoFacts.
Import Js.





End EchoFacts.


(** ** The render functions, further *)

Section RenderMore.
Import Js Api.

Lemma mapi_lookup {A B : Type} (f : A -> nat -> B) (xs : list A) (i : nat) :
  Multi.mapi f xs !! i = (fun x => f x i) <$> xs !! i.
Proof.
  unfold Multi.mapi.
  assert (H : forall (g : nat * A -> B) l, map g l = g <$> l).
  { intros g l. induction l as [|y l IH]; [done|]. simpl. by rewrite IH. }
  rewrite H, list_lookup_fmap, list_lookup_imap. by destruct (xs !! i).
Qed.

Lemma mapi_length {A B : Type} (f : A -> nat -> B) (xs : list A) :
  length (Multi.mapi f xs) = length xs.
Proof. unfold Multi.mapi. by rewrite length_map, length_imap. Qed.

(** The candidate list is shown whole, whatever its length, in the order
    returned, and the item at position [i] is ranked [i + 1]. *)
Theorem hidden_rows_all_ranked (x : Multi.HiddenRow) (rows : list Multi.HiddenRow) :
  exists items,
    Multi.renderHidden (Some (mkPayload (Some (x :: rows)))) = Rows items
    /\ length items = length (x :: rows)
    /\ forall i y, (x :: rows) !! i = Some y ->
                   items !! i = Some (S i, Multi.counterparty_name y, Multi.freq y,
                                      or0 (Multi.total_amount y)).
Proof.
  eexists. split; [reflexivity|]. split; [by rewrite mapi_length|].
  intros i y Hy. rewrite mapi_lookup, Hy. simpl. do 4 f_equal. lia.
Qed.

(** How [renderInteraction] ends: it throws exactly on a graph that has
    nodes and no edge list, and only a [TypeError]; the bar it draws is
    between 0 and 100 percent wide, and has no width ([NaN]) exactly when
    the edge list is empty. *)
Theorem interaction_outcome (data : option Multi.Graph) :
  (forall e, Multi.renderInteraction data = Rejected e
             <-> e = TypeError
                 /\ exists d n ns, data = Some d /\ Multi.nodes d = Some (n :: ns)
                                   /\ Multi.links d = None)
  /\ (forall n_nodes n_links big w,
         Multi.renderInteraction data = Resolved (Multi.Summary n_nodes n_links big w) ->
         (w = None <-> n_links = 0%nat)
         /\ forall q, w = Some q -> (0 <= q)%Q /\ (q <= 100)%Q).
Proof.
  unfold Multi.renderInteraction. split.
  - intros e. destruct data as [d|].
    2:{ split; [discriminate|]. by intros (_ & d & n & ns & ? & _). }
    destruct (Multi.nodes d) as [[|n ns]|] eqn:Hn.
    1,3: split; [discriminate|]; intros (_ & d' & n' & ns' & [= <-] & Hn' & _); congruence.
    destruct (Multi.links d) as [ls|] eqn:Hl.
    + split; [discriminate|]. intros (_ & d' & n' & ns' & [= <-] & _ & Hl'). congruence.
    + split; [intros [= <-]; split; [done|]; by exists d, n, ns|]. by intros [-> _].
  - intros n_nodes n_links big w. destruct data as [d|]; [|discriminate].
    destruct (Multi.nodes d) as [[|n ns]|]; try discriminate.
    destruct (Multi.links d) as [ls|]; [|discriminate].
    pose proof (large_edges_le ls) as Hle. unfold large_edges in Hle.
    set (b := length (filter _ ls)) in *. clearbody b.
    destruct ls as [|l ls]; intros [= <- <- <- <-].
    + split; [done|]. discriminate.
    + split; [split; discriminate|]. intros q [= <-].
      change (length (l :: ls)) with (S (length ls)) in *.
      set (len := S (length ls)) in *.
      assert (Hlen : (0 < len)%nat) by (unfold len; lia). clearbody len.
      assert (Hpos : (0 < inject_Z (Z.of_nat len))%Q).
      { unfold Qlt, inject_Z. simpl. lia. }
      assert (H0 : (0 <= inject_Z (Z.of_nat b) / inject_Z (Z.of_nat len))%Q).
      { apply Qle_shift_div_l; [exact Hpos|]. rewrite Qmult_0_l.
        unfold Qle, inject_Z. simpl. lia. }
      assert (H1 : (inject_Z (Z.of_nat b) / inject_Z (Z.of_nat len) <= 1)%Q).
      { apply Qle_shift_div_r; [exact Hpos|]. rewrite Qmult_1_l.
        unfold Qle, inject_Z. simpl. lia. }
      split.
      * apply Qmult_le_0_compat; [exact H0|]. unfold Qle. simpl. lia.
      * apply Qle_trans with (1 * 100)%Q; [|unfold Qle; simpl; lia].
        apply Qmult_le_compat_r; [exact H1|]. unfold Qle. simpl. lia.
Qed.

End RenderMore.


Lemma interaction_outcome_witness :
  let g := Multi.mkGraph (Some ["甲"; "乙"]) None in
  let h := Multi.mkGraph (Some ["甲"; "乙"])
             (Some [Multi.mkLink "甲" "乙" (Some 20000%Q); Multi.mkLink "乙" "甲" None]) in
  Multi.renderInteraction (Some g) = Js.Rejected Js.TypeError
  /\ exists q, Multi.renderInteraction (Some h) = Js.Resolved (Multi.Summary 2 2 1 (Some q))
               /\ (0 <= q)%Q /\ (q <= 100)%Q.
Proof.
  intros g h.
  destruct (interaction_outcome (Some g)) as (Hg & _).
  destruct (interaction_outcome (Some h)) as (_ & Hh).
  split.
  - apply Hg. split; [reflexivity|]. exists g, "甲", ["乙"].
    split; [reflexivity|]. split; reflexivity.
  - eexists. split; [reflexivity|].
    destruct (Hh 2%nat 2%nat 1%nat _ eq_refl) as (_ & Hq). exact (Hq _ eq_refl).
Defined.

(** ** The panel reload handlers *)

Section ReloadFacts.
Import Js Fetch Api Reload.

Lemma reload_cases {J V : Type} (net : Network J) (url : string) (render : J -> V) :
  let r := reload net url render in
  (forall resp body, net url = Resolved resp -> ok resp = true -> json resp = Resolved body ->
                     r = (Shown (render body), []))
  /\ (forall resp, net url = Resolved resp -> ok resp = false ->
                   r = (Spinner, [Error (statusText resp)]))
  /\ (forall resp e, net url = Resolved resp -> ok resp = true -> json resp = Rejected e ->
                     r = (Spinner, [e]))
  /\ (forall e, net url = Rejected e -> r = (Spinner, [e]))
  /\ (r.1 = Spinner <-> r.2 <> []).
Proof.
  unfold reload, then_, fetchJSON. cbv zeta.
  split; [by intros resp body -> -> ->|]. split; [by intros resp -> ->|].
  split; [by intros resp e -> -> ->|]. split; [by intros e ->|].
  destruct (net url) as [resp|e]; [|done].
  destruct (ok resp); simpl; [|done]. by destruct (json resp).
Qed.

(** A reload that fails leaves the spinner in its panel. The candidate list
    and the ranking table are rendered only from the parsed body of an ok
    reply; a reply that is not ok, a body that is not JSON and a request
    that does not get through each leave the spinner where the handler put
    it and log one error, and nothing is logged otherwise. *)
Theorem failed_reload_keeps_spinner
  (net : Network (option (Payload Multi.HiddenRow)))
  (net' : Network (option (Payload Single.StatsRow)))
  (v : option string) (person filter id : string) :
  let url := Multi.hidden_url id (Multi.window_minutes v) in
  let url' := Single.stats_url id (trim person) filter in
  let r := hiddenReloadClick net v id in
  let r' := statsFilterChange net' person filter id in
  ((forall resp body, net url = Resolved resp -> ok resp = true -> json resp = Resolved body ->
                      r = (Shown (Multi.renderHidden body), []))
   /\ (forall resp, net url = Resolved resp -> ok resp = false ->
                    r = (Spinner, [Error (statusText resp)]))
   /\ (forall resp e, net url = Resolved resp -> ok resp = true -> json resp = Rejected e ->
                      r = (Spinner, [e]))
   /\ (forall e, net url = Rejected e -> r = (Spinner, [e]))
   /\ (r.1 = Spinner <-> r.2 <> []))
  /\ ((forall resp body, net' url' = Resolved resp -> ok resp = true -> json resp = Resolved body ->
                         r' = (Shown (Single.renderStats body), []))
      /\ (forall resp, net' url' = Resolved resp -> ok resp = false ->
                       r' = (Spinner, [Error (statusText resp)]))
      /\ (forall resp e, net' url' = Resolved resp -> ok resp = true -> json resp = Rejected e ->
                         r' = (Spinner, [e]))
      /\ (forall e, net' url' = Rejected e -> r' = (Spinner, [e]))
      /\ (r'.1 = Spinner <-> r'.2 <> [])).
Proof.
  split; [apply (reload_cases net)|apply (reload_cases net')].
Qed.

End ReloadFacts.

Lemma failed_reload_keeps_spinner_witness :
  let missing := Fetch.mkResponse false "Not Found" (Js.Rejected Js.SyntaxError) in
  let broken := Fetch.mkResponse true "OK" (Js.Rejected Js.SyntaxError) in
  Reload.hiddenReloadClick (fun _ => Js.Resolved missing) (Some "15") "CASE-001"
  = (Reload.Spinner, [Js.Error "Not Found"])
  /\ Reload.statsFilterChange (fun _ => Js.Resolved broken) " 张三 " "all" "CASE-001"
     = (Reload.Spinner, [Js.SyntaxError]).
Proof.
  intros missing broken.
  destruct (failed_reload_keeps_spinner (fun _ => Js.Resolved missing)
              (fun _ => Js.Resolved broken) (Some "15") " 张三 " "all" "CASE-001")
    as ((_ & H2 & _) & (_ & _ & H3 & _)).
  split; [exact (H2 missing eq_refl eq_refl)|exact (H3 broken Js.SyntaxError eq_refl eq_refl eq_refl)].
Defined.
